(** * Ward boundary pipeline: a shallow embedding of the JavaScript sources

    Sources embedded here:
    - [citizens-app/src/utils/geoUtils.js]: [isPointInPolygon],
      [findWardForPoint], [simplifyGeoJSON], [isPointInBounds],
      [filterGeoJSONByBounds];
    - the [useGeoJSON] hook: [loadGeoJSON], [getCachedGeoJSON],
      [cacheGeoJSON], [filteredGeoJSON], [refreshGeoJSON];
    - the ward router: [router.post('/import')];
    - [geoUtils.js] again: [renderGeoJSONPolygons], [shouldRenderFeature],
      [debounce], [throttle]; the memo [wardPolygons] of the map view;
    - the ward router: [router.get('/boundaries/simplified')]; the
      [useWards] hook: [findWardByLocation].

    Conventions.
    - A JavaScript number is a rational [Q] with exact arithmetic; IEEE
      rounding, NaN and the infinities are not modelled.
    - A position (the array [[lng, lat]]) is a heap object: besides its two
      coordinates it has an identity, which [!==] compares.  The class
      [Position] gives the interface.
    - Code that can throw returns a [result].
    - What the sources take from outside ([simplify-geojson], [fetch],
      [JSON], [AsyncStorage], the database) is a parameter or an explicit
      argument.

    The first part holds the embedding, one module per source unit; the
    second part, from [Properties] on, the lemmas and theorems; the third
    part, [Further properties], what else the embedded code guarantees. *)

From Stdlib Require Import QArith Qround Lqa Lia List Bool Arith ZArith.
From stdpp Require Import gmap strings.
Import ListNotations.

(** ** JavaScript values and exceptions *)

Inductive JSValue : Type :=
| JUndefined
| JNull
| JBool (b : bool)
| JNum (q : Q)
| JStr (s : string).

(** ToBoolean. *)
Definition truthy (v : JSValue) : bool :=
  match v with
  | JUndefined | JNull => false
  | JBool b => b
  | JNum q => negb (Qeq_bool q 0)
  | JStr s => negb (String.eqb s "")
  end.

(** [a || b]. *)
Definition js_or (a b : JSValue) : JSValue := if truthy a then a else b.

(** A property bag: [obj.key] is [JUndefined] when the key is missing. *)
Definition get_prop (o : gmap string JSValue) (k : string) : JSValue :=
  default JUndefined (o !! k).

(** [o?.key] on a bag that may be null or undefined. *)
Definition get_prop_opt (o : option (gmap string JSValue)) (k : string) : JSValue :=
  match o with
  | Some o => get_prop o k
  | None => JUndefined
  end.

Inductive result (A : Type) : Type :=
| Ok (a : A)
| TypeError.
Arguments Ok {A} a.
Arguments TypeError {A}.

(** A call of a library function that may change its argument in place:
    the value it returns or, when it throws, the argument as the call left
    it. *)
Inductive Outcome (A : Type) : Type :=
| Returns (value : A)
| Throws (left : A).
Arguments Returns {A} value.
Arguments Throws {A} left.

(** ** The network *)

(** What [await fetch(url)] gives: a rejection, or a response with [ok],
    [status] and the outcome of reading its JSON body ([None]: reading the
    body, or the path [data.data.geojson] into it, throws). *)
Inductive FetchOutcome (Body : Type) : Type :=
| FetchRejected (message : string)
| Response (ok : bool) (status : Z) (json : option Body).
Arguments FetchRejected {Body} message.
Arguments Response {Body} ok status json.

(** ** Numbers *)

Definition num_gt (x y : Q) : bool := negb (Qle_bool x y).
Definition num_lt (x y : Q) : bool := negb (Qle_bool y x).
Definition num_ge (x y : Q) : bool := Qle_bool y x.
Definition num_le (x y : Q) : bool := Qle_bool x y.

(** ** Arrays *)

(** [array.filter((item, index) => keep(item, index))], counting from [index]. *)
Fixpoint js_filter {A : Type} (keep : A -> nat -> bool) (index : nat) (l : list A) : list A :=
  match l with
  | [] => []
  | x :: rest =>
      if keep x index then x :: js_filter keep (S index) rest
      else js_filter keep (S index) rest
  end.

(** [index % step === 0]; [index % 0] is NaN. *)
Definition multiple_of (step index : nat) : bool :=
  if (step =? 0)%nat then false else (index mod step =? 0)%nat.

(** [array[array.length - 1]], [undefined] on the empty array. *)
Definition last_item {A : Type} (l : list A) : option A := List.last (map Some l) None.

(** [array.slice(from, to)]. *)
Definition slice {A : Type} (from to : nat) (l : list A) : list A :=
  firstn (to - from) (skipn from l).

(** ** Positions, geometries, features *)

(** A position [[lng, lat]] as a heap object.  [same_object p q] is
    [p === q]: two references to one object read the same coordinates. *)
Class Position (P : Type) := {
  coord0 : P -> Q;
  coord1 : P -> Q;
  same_object : P -> P -> bool;
  same_object_refl : forall p, same_object p p = true;
  same_object_coords : forall p q,
    same_object p q = true -> coord0 p = coord0 q /\ coord1 p = coord1 q
}.

(** Positions without sharing: a position is its pair of coordinates, and
    two positions are one object exactly when the pairs are identical. *)
Definition Q_eqb (a b : Q) : bool :=
  Z.eqb (Qnum a) (Qnum b) && Pos.eqb (Qden a) (Qden b).

#[export] Program Instance pair_Position : Position (Q * Q) := {|
  coord0 := fst;
  coord1 := snd;
  same_object := fun p q => Q_eqb (fst p) (fst q) && Q_eqb (snd p) (snd q)
|}.
Next Obligation.
  intros [[a b] [c d]]. unfold Q_eqb. simpl.
  rewrite !Z.eqb_refl, !Pos.eqb_refl. reflexivity.
Qed.
Next Obligation.
  intros [[a b] [c d]] [[a' b'] [c' d']]. unfold Q_eqb. simpl.
  rewrite !andb_true_iff, !Z.eqb_eq, !Pos.eqb_eq.
  intros [[-> ->] [-> ->]]. split; reflexivity.
Qed.

(** Positions in a heap: a position is an address, [heap] gives the two
    numbers stored there, and two positions are one object when the
    addresses are equal. *)
Program Definition heap_Position (heap : nat -> Q * Q) : Position nat := {|
  coord0 := fun address => fst (heap address);
  coord1 := fun address => snd (heap address);
  same_object := Nat.eqb
|}.
Next Obligation. intros heap p. apply Nat.eqb_refl. Qed.
Next Obligation.
  intros heap p q Hpq. apply Nat.eqb_eq in Hpq. subst q. split; reflexivity.
Qed.

(** [a !== b] on two values that are positions or [undefined]. *)
Definition strict_neq {P : Type} `{Position P} (a b : option P) : bool :=
  match a, b with
  | Some p, Some q => negb (same_object p q)
  | None, None => false
  | _, _ => true
  end.

(** The query point [{latitude, longitude}]. *)
Record LatLng : Type := { latitude : Q; longitude : Q }.

Section Model.
Context {P : Type} `{Position P}.

(** [geometry.type] with its [coordinates]: a Polygon is a list of rings,
    a MultiPolygon a list of polygons. *)
Inductive Geometry : Type :=
| Polygon (coordinates : list (list P))
| MultiPolygon (coordinates : list (list (list P))).

Record Feature : Type := {
  properties : option (gmap string JSValue);
  geometry : option Geometry
}.

(** A collection; [features] may be missing.  The other members of the
    object (copied by the spreads [...geojson]) are not modelled. *)
Record FeatureCollection : Type := { features : option (list Feature) }.

(** A ring is closed when its first and last positions have the same
    coordinates. *)
Definition ring_closed (ring : list P) : Prop :=
  match ring, last_item ring with
  | first :: _, Some final =>
      (coord0 first == coord0 final /\ coord1 first == coord1 final)%Q
  | _, _ => False
  end.

End Model.
Arguments Geometry P : clear implicits.
Arguments Feature P : clear implicits.
Arguments FeatureCollection P : clear implicits.

(** ** Geometry primitives ([geoUtils.js]) *)

Module Geo.
Section Geo.
Context {P : Type} `{Position P}.

(** The test of one loop iteration of [isPointInPolygon], on [polygon[i]]
    and [polygon[j]]:
    [((yi > lat) !== (yj > lat)) && (lng < (xj - xi) * (lat - yi) / (yj - yi) + xi)].
    [&&] evaluates the division only when the two heights differ. *)
Definition edge_crosses (point : LatLng) (pi pj : P) : bool :=
  let lat := latitude point in
  let lng := longitude point in
  let xi := coord0 pi in
  let yi := coord1 pi in
  let xj := coord0 pj in
  let yj := coord1 pj in
  negb (Bool.eqb (num_gt yi lat) (num_gt yj lat))
  && num_lt lng ((xj - xi) * (lat - yi) / (yj - yi) + xi)%Q.

(** One iteration: the state is [(j, inside)]; afterwards [j = i].  Every
    index the loop reads is below [polygon.length]. *)
Definition pip_step (point : LatLng) (polygon : list P)
  (st : nat * bool) (i : nat) : nat * bool :=
  let '(j, inside) := st in
  match nth_error polygon i, nth_error polygon j with
  | Some pi, Some pj =>
      (i, if edge_crosses point pi pj then negb inside else inside)
  | _, _ => (i, inside)
  end.

(** [for (let i = 0, j = polygon.length - 1; i < polygon.length; j = i++)]. *)
Definition isPointInPolygon (point : LatLng) (polygon : list P) : bool :=
  let n := length polygon in
  snd (fold_left (pip_step point polygon) (seq 0 n) ((n - 1)%nat, false)).

(** The test made on one feature by the loop body of [findWardForPoint]:
    [Ok true] is [return feature], [Ok false] goes on to the next feature.
    [isPointInPolygon(point, undefined)] throws on [polygon.length]. *)
Fixpoint any_polygon_contains (point : LatLng) (polygons : list (list (list P)))
  : result bool :=
  match polygons with
  | [] => Ok false
  | polygon :: rest =>
      match polygon with
      | [] => TypeError
      | coordinates :: _ =>
          if isPointInPolygon point coordinates then Ok true
          else any_polygon_contains point rest
      end
  end.

Definition feature_test (point : LatLng) (feature : Feature P) : result bool :=
  match geometry feature with
  | Some (Polygon rings) =>
      match rings with
      | [] => TypeError
      | coordinates :: _ => Ok (isPointInPolygon point coordinates)
      end
  | Some (MultiPolygon polygons) => any_polygon_contains point polygons
  | None => Ok false
  end.

Fixpoint find_loop (point : LatLng) (fs : list (Feature P))
  : result (option (Feature P)) :=
  match fs with
  | [] => Ok None
  | feature :: rest =>
      match feature_test point feature with
      | Ok true => Ok (Some feature)
      | Ok false => find_loop point rest
      | TypeError => TypeError
      end
  end.

(** [if (!geoJsonData?.features || !point) return null]. *)
Definition findWardForPoint (point : option LatLng)
  (geoJsonData : option (FeatureCollection P)) : result (option (Feature P)) :=
  match geoJsonData, point with
  | Some g, Some pt =>
      match features g with
      | Some fs => find_loop pt fs
      | None => Ok None
      end
  | _, _ => Ok None
  end.

(** *** What the lookup is about *)

(** A feature contains the point when the first ring of its Polygon, or
    the first ring of one of the polygons of its MultiPolygon, does. *)
Definition feature_contains (point : LatLng) (feature : Feature P) : bool :=
  match geometry feature with
  | Some (Polygon (ring :: _)) => isPointInPolygon point ring
  | Some (MultiPolygon polygons) =>
      existsb (fun polygon =>
                 match polygon with
                 | ring :: _ => isPointInPolygon point ring
                 | [] => false
                 end) polygons
  | _ => false
  end.

(** Every polygon of the feature has a first ring. *)
Definition has_rings (feature : Feature P) : bool :=
  match geometry feature with
  | Some (Polygon rings) => match rings with [] => false | _ => true end
  | Some (MultiPolygon polygons) =>
      forallb (fun polygon => match polygon with [] => false | _ :: _ => true end) polygons
  | None => true
  end.

(** *** Convex rings

    The plane has the longitude as first and the latitude as second
    coordinate. *)












End Geo.
End Geo.

(** ** Simplifier ([simplifyGeoJSON]) *)

Module Simplifier.
Section Simplifier.
Context {P : Type} `{Position P}.

(** The package [simplify-geojson] is not part of the repository: the call
    [simplify(geojson, tolerance, true)] is a parameter.  When it throws,
    [geojson] in the [catch] block is the argument as the call left it. *)
Variable simplify : FeatureCollection P -> Q -> bool -> Outcome (FeatureCollection P).

(** [Math.ceil(n / 50)]. *)
Definition ceil_div50 (n : nat) : nat :=
  Z.to_nat (Qceiling (inject_Z (Z.of_nat n) / 50)).

(** The body of [if (coords.length > 100)]: the new [coordinates[0]]. *)
Definition reduce_ring (coords : list P) : list P :=
  let step := ceil_div50 (length coords) in
  let reducedCoords := js_filter (fun _ index => multiple_of step index) 0 coords in
  if strict_neq (last_item reducedCoords) (last_item coords)
  then match last_item coords with
       | Some q => reducedCoords ++ [q]
       | None => reducedCoords
       end
  else reducedCoords.

(** The callback of [simplified.features.map]. *)
Definition cap_feature (feature : Feature P) : Feature P :=
  match geometry feature with
  | Some (Polygon (coords :: others)) =>
      if (100 <? length coords)%nat
      then {| properties := properties feature;
              geometry := Some (Polygon (reduce_ring coords :: others)) |}
      else feature
  | _ => feature
  end.

Definition simplifyGeoJSON (geojson : FeatureCollection P) (tolerance : Q)
  : FeatureCollection P :=
  match simplify geojson tolerance true with
  | Returns simplified =>
      match features simplified with
      | Some fs => {| features := Some (map cap_feature fs) |}
      | None => simplified
      end
  | Throws geojson => geojson
  end.

(** The primary ring of every Polygon feature is closed. *)
Definition primary_rings_closed (g : FeatureCollection P) : Prop :=
  forall fs f ring others,
    features g = Some fs -> In f fs ->
    geometry f = Some (Polygon (ring :: others)) -> ring_closed ring.

(** The lengths of all rings of a collection, feature by feature. *)
Definition ring_lengths_of (f : Feature P) : list nat :=
  match geometry f with
  | Some (Polygon rings) => map (@length P) rings
  | Some (MultiPolygon polygons) => concat (map (map (@length P)) polygons)
  | None => []
  end.

Definition ring_lengths (g : FeatureCollection P) : list (list nat) :=
  match features g with
  | Some fs => map ring_lengths_of fs
  | None => []
  end.

End Simplifier.
End Simplifier.

(** ** Spatial filter ([isPointInBounds], [filterGeoJSONByBounds]) *)

Module SpatialFilter.

(** Map bounds [{northEast, southWest}]. *)
Record Bounds : Type := { northEast : LatLng; southWest : LatLng }.

(** [if (!bounds || !point) return true]. *)
Definition isPointInBounds (point : option LatLng) (bounds : option Bounds) : bool :=
  match bounds, point with
  | Some bounds, Some point =>
      num_ge (latitude point) (latitude (southWest bounds))
      && num_le (latitude point) (latitude (northEast bounds))
      && num_ge (longitude point) (longitude (southWest bounds))
      && num_le (longitude point) (longitude (northEast bounds))
  | _, _ => true
  end.

Definition expand (bounds : Bounds) : Bounds :=
  {| northEast := {| latitude := latitude (northEast bounds) + 0.01;
                     longitude := longitude (northEast bounds) + 0.01 |};
     southWest := {| latitude := latitude (southWest bounds) - 0.01;
                     longitude := longitude (southWest bounds) - 0.01 |} |}.

Section SpatialFilter.
Context {P : Type} `{Position P}.

(** [coordinates.some(coord => isPointInBounds({latitude: coord[1],
    longitude: coord[0]}, expandedBounds))] with
    [coordinates = feature.geometry.coordinates[0] || []].  For a
    MultiPolygon [coordinates[0]] is a polygon, [coord] a ring and
    [coord[1]], [coord[0]] are positions: an array compared with a number
    converts to NaN and every comparison is false. *)
Definition any_vertex_in (expandedBounds : Bounds) (g : Geometry P) : bool :=
  match g with
  | Polygon rings =>
      let coordinates := match rings with ring :: _ => ring | [] => [] end in
      existsb (fun coord =>
        isPointInBounds
          (Some {| latitude := coord1 coord; longitude := coord0 coord |})
          (Some expandedBounds)) coordinates
  | MultiPolygon _ => false
  end.

(** The callback of [geojson.features.filter]; [total] is
    [geojson.features.length]. *)
Definition keep_feature (expandedBounds : Bounds) (total : nat)
  (feature : Feature P) (index : nat) : bool :=
  if negb (index mod 2 =? 0)%nat && (50 <? total)%nat then false
  else match geometry feature with
       | None => false
       | Some g => any_vertex_in expandedBounds g
       end.

(** [if (!bounds || !geojson?.features) return geojson]. *)
Definition filterGeoJSONByBounds (geojson : FeatureCollection P)
  (bounds : option Bounds) : FeatureCollection P :=
  match bounds, features geojson with
  | Some bounds, Some fs =>
      {| features :=
           Some (js_filter (keep_feature (expand bounds) (length fs)) 0 fs) |}
  | _, _ => geojson
  end.

(** The stride-skip: the items at the even indices. *)
Definition evens {A : Type} (l : list A) : list A :=
  js_filter (fun _ index => (index mod 2 =? 0)%nat) 0 l.

(** The bounds test of one feature: some vertex of [coordinates[0]] lies in
    the expanded bounds. *)
Definition vertex_in_bounds (bounds : Bounds) (feature : Feature P) : bool :=
  match geometry feature with
  | None => false
  | Some g => any_vertex_in (expand bounds) g
  end.

End SpatialFilter.
End SpatialFilter.

(** ** Boundary store (the [useGeoJSON] hook) *)

Module BoundaryStore.
Import SpatialFilter.

Definition GEOJSON_CACHE_KEY : string := "cached_wards_geojson".
Definition CACHE_EXPIRY_HOURS : Q := 2.

(** [AsyncStorage]: a key-value store that serves the requests in the order
    they were issued, and serves them all.  A request that is not awaited
    stays in [pending] until a later request is awaited. *)
Inductive StorageOp : Type :=
| SetItem (key value : string)
| RemoveItem (key : string).

Record AsyncStorage : Type := {
  store : gmap string string;
  pending : list StorageOp
}.

Definition apply_op (m : gmap string string) (op : StorageOp) : gmap string string :=
  match op with
  | SetItem key value => <[key := value]> m
  | RemoveItem key => delete key m
  end.

Definition issue (op : StorageOp) (s : AsyncStorage) : AsyncStorage :=
  {| store := store s; pending := pending s ++ [op] |}.

Definition settle (s : AsyncStorage) : AsyncStorage :=
  {| store := fold_left apply_op (pending s) (store s); pending := [] |}.

(** [await AsyncStorage.getItem(key)]. *)
Definition getItem (key : string) (s : AsyncStorage) : option string * AsyncStorage :=
  let s' := settle s in (store s' !! key, s').

(** [await AsyncStorage.removeItem(key)] and [await AsyncStorage.setItem(key, value)]. *)
Definition await_op (op : StorageOp) (s : AsyncStorage) : AsyncStorage :=
  settle (issue op s).

Inductive DataSource : Type := cache | api | github.

(** [err.message]: of the error made by [loadGeoJSON], of a rejected
    [fetch], or of an exception of the runtime. *)
Inductive ErrorMessage : Type :=
| FailedToFetch (status : Z)
| Rejected (message : string)
| Thrown.

Section BoundaryStore.
Context {P : Type} `{Position P}.

Variable simplify : FeatureCollection P -> Q -> bool -> Outcome (FeatureCollection P).

(** The stored blob [{data, timestamp}]. *)
Record CacheData : Type := { data : FeatureCollection P; timestamp : Z }.

(** [JSON.parse] followed by the destructuring [{data, timestamp}] ([None]
    when either throws), and [JSON.stringify]. *)
Variable json_parse : string -> option CacheData.
Variable json_stringify : CacheData -> string.

Record HookState : Type := {
  geoJsonData : option (FeatureCollection P);
  loading : bool;
  error : option ErrorMessage;
  dataSource : DataSource
}.

(** [useState(null)], [useState(true)], [useState(null)], [useState('cache')]. *)
Definition initial_state : HookState :=
  {| geoJsonData := None; loading := true; error := None; dataSource := cache |}.

(** [getCachedGeoJSON], with [now] the value of [Date.now()]; [!cached]
    holds of null and of the empty string. *)
Definition getCachedGeoJSON (now : Z) (s : AsyncStorage)
  : option (FeatureCollection P) * AsyncStorage :=
  let '(cached, s1) := getItem GEOJSON_CACHE_KEY s in
  match cached with
  | None => (None, s1)
  | Some cached =>
      if String.eqb cached "" then (None, s1)
      else match json_parse cached with
      | None => (None, s1)
      | Some entry =>
          let cacheAge := (inject_Z (now - timestamp entry) / (1000 * 60 * 60))%Q in
          if num_gt cacheAge CACHE_EXPIRY_HOURS
          then (None, await_op (RemoveItem GEOJSON_CACHE_KEY) s1)
          else (Some (data entry), s1)
      end
  end.

(** [cacheGeoJSON]. *)
Definition cacheGeoJSON (now : Z) (d : FeatureCollection P) (s : AsyncStorage)
  : AsyncStorage :=
  await_op
    (SetItem GEOJSON_CACHE_KEY (json_stringify {| data := d; timestamp := now |})) s.

(** The callback that builds the pruned feature. *)
Definition prune_feature (feature : Feature P) : Feature P :=
  let props := properties feature in
  {| properties := Some (
       <["id" := js_or (get_prop_opt props "id") (get_prop_opt props "WARD_ID")]> (
       <["name" := js_or (get_prop_opt props "name") (get_prop_opt props "WARD_NAME")]> (
       <["municipality" :=
           js_or (get_prop_opt props "municipality") (get_prop_opt props "MUNICIPALITY")]>
       ∅)));
     geometry := geometry feature |}.

(** The inner [try]/[catch] of [loadGeoJSON]: the raw collection and the
    source it came from, or the message of the error thrown out of the
    [catch] block.  The fallback is fetched only when the primary failed. *)
Definition fetch_raw (primary fallback : FetchOutcome (FeatureCollection P))
  : ErrorMessage + (FeatureCollection P * DataSource) :=
  match primary with
  | Response true _ (Some geojson) => inr (geojson, api)
  | _ =>
      match fallback with
      | FetchRejected message => inl (Rejected message)
      | Response false status _ => inl (FailedToFetch status)
      | Response true _ None => inl Thrown
      | Response true _ (Some geojson) => inr (geojson, github)
      end
  end.

(** [loadGeoJSON] after a cache miss. *)
Definition load_from_network (tolerance : Q) (now : Z)
  (primary fallback : FetchOutcome (FeatureCollection P))
  (s : AsyncStorage) (st : HookState) : AsyncStorage * HookState :=
  match fetch_raw primary fallback with
  | inl message =>
      (s, {| geoJsonData := geoJsonData st; loading := false;
             error := Some message; dataSource := dataSource st |})
  | inr (rawGeoJSON, source) =>
      let simplifiedGeoJSON := Simplifier.simplifyGeoJSON simplify rawGeoJSON tolerance in
      match features simplifiedGeoJSON with
      | None =>
          (s, {| geoJsonData := geoJsonData st; loading := false;
                 error := Some Thrown; dataSource := source |})
      | Some fs =>
          let optimizedGeoJSON := {| features := Some (map prune_feature fs) |} in
          (cacheGeoJSON now optimizedGeoJSON s,
           {| geoJsonData := Some optimizedGeoJSON; loading := false;
              error := error st; dataSource := source |})
      end
  end.

(** [loadGeoJSON]: [now_read] and [now_write] are the two readings of
    [Date.now()], in [getCachedGeoJSON] and in [cacheGeoJSON]. *)
Definition loadGeoJSON (tolerance : Q) (now_read now_write : Z)
  (primary fallback : FetchOutcome (FeatureCollection P))
  (s : AsyncStorage) (st : HookState) : AsyncStorage * HookState :=
  let st1 := {| geoJsonData := geoJsonData st; loading := true;
                error := None; dataSource := dataSource st |} in
  let '(cachedData, s1) := getCachedGeoJSON now_read s in
  match cachedData with
  | Some cachedData =>
      (s1, {| geoJsonData := Some cachedData; loading := false;
              error := None; dataSource := cache |})
  | None => load_from_network tolerance now_write primary fallback s1 st1
  end.

(** [refreshGeoJSON]: the removal is issued and not awaited. *)
Definition refreshGeoJSON (tolerance : Q) (now_read now_write : Z)
  (primary fallback : FetchOutcome (FeatureCollection P))
  (s : AsyncStorage) (st : HookState) : AsyncStorage * HookState :=
  loadGeoJSON tolerance now_read now_write primary fallback
    (issue (RemoveItem GEOJSON_CACHE_KEY) s) st.

(** The memo [filteredGeoJSON]; [.features.slice] throws when [features]
    is missing. *)
Definition filteredGeoJSON (geoJsonData : option (FeatureCollection P))
  (mapBounds : option Bounds) : result (option (FeatureCollection P)) :=
  match geoJsonData with
  | None => Ok None
  | Some g =>
      match mapBounds with
      | None =>
          match features g with
          | Some fs => Ok (Some {| features := Some (slice 0 50 fs) |})
          | None => TypeError
          end
      | Some bounds =>
          let filtered := filterGeoJSONByBounds g (Some bounds) in
          match features filtered with
          | Some fs => Ok (Some {| features := Some (slice 0 100 fs) |})
          | None => TypeError
          end
      end
  end.

(** What [useGeoJSON] returns ([refreshGeoJSON] apart). *)
Record HookResult : Type := {
  result_geoJsonData : result (option (FeatureCollection P));
  result_loading : bool;
  result_error : option ErrorMessage;
  result_dataSource : DataSource;
  totalFeatures : nat
}.

Definition useGeoJSON (mapBounds : option Bounds) (st : HookState) : HookResult :=
  {| result_geoJsonData := filteredGeoJSON (geoJsonData st) mapBounds;
     result_loading := loading st;
     result_error := error st;
     result_dataSource := dataSource st;
     totalFeatures :=
       match geoJsonData st with
       | Some g => match features g with Some fs => length fs | None => 0%nat end
       | None => 0%nat
       end |}.

(** The state after the first two setters of [loadGeoJSON]. *)
Definition started (st : HookState) : HookState :=
  {| geoJsonData := geoJsonData st; loading := true; error := None;
     dataSource := dataSource st |}.

(** The storage once the cache entry is removed. *)
Definition purged (s : AsyncStorage) : AsyncStorage :=
  {| store := delete GEOJSON_CACHE_KEY (store (settle s)); pending := [] |}.

(** The primary fetch did not give a collection: it was rejected, the
    response was not ok, or its body could not be read. *)
Definition primary_failed (primary : FetchOutcome (FeatureCollection P)) : Prop :=
  match primary with
  | Response true _ (Some _) => False
  | _ => True
  end.

End BoundaryStore.
End BoundaryStore.

(** ** Ingestion ([router.post('/import')]) *)

Module Ingestion.
Section Ingestion.
Context {P : Type} `{Position P}.

(** A row of the table [wards]. *)
Record WardRecord : Type := {
  ward_id : string;
  name : JSValue;
  municipality_id : JSValue;
  geojson : option (Geometry P);
  ward_properties : gmap string JSValue
}.

(** [value.toString()] and the conversion of a template literal. *)
Variable js_to_string : JSValue -> string.

(** [supabase.from('wards').upsert(batch, ...)]: the [error.message] of the
    answer, [None] when [error] is null. *)
Variable upsert : list WardRecord -> option string.

Inductive HttpResponse : Type :=
| Status400 (message : string)
| Status500
| Success (imported_count total_features : nat).

(** [Math.max(1, Math.floor(n * tolerance))]. *)
Definition stride (n : nat) (simplify_tolerance : Q) : nat :=
  Z.to_nat (Z.max 1 (Qfloor (inject_Z (Z.of_nat n) * simplify_tolerance))).

Definition simplify_ring (simplify_tolerance : Q) (coords : list P) : list P :=
  let step := stride (length coords) simplify_tolerance in
  let simplified := js_filter (fun _ index => multiple_of step index) 0 coords in
  if strict_neq (last_item simplified) (last_item coords)
  then match last_item coords with
       | Some q => simplified ++ [q]
       | None => simplified
       end
  else simplified.

(** [simplifiedGeometry]; [coords.length] throws when the Polygon has no
    ring. *)
Definition simplify_geometry (simplify_tolerance : Q) (g : option (Geometry P))
  : result (option (Geometry P)) :=
  match g with
  | Some (Polygon rings) =>
      if num_gt simplify_tolerance 0
      then match rings with
           | [] => TypeError
           | coords :: _ => Ok (Some (Polygon [simplify_ring simplify_tolerance coords]))
           end
      else Ok g
  | _ => Ok g
  end.

(** [properties.id || properties.WARD_ID || properties.ward_id]. *)
Definition ward_id_of (props : gmap string JSValue) : JSValue :=
  js_or (js_or (get_prop props "id") (get_prop props "WARD_ID")) (get_prop props "ward_id").

(** One iteration of [for (const feature of geojsonData.features)]:
    [Ok None] is the [continue] of a feature without ward id. *)
Definition ward_of_feature (municipality : JSValue) (simplify_tolerance : Q)
  (feature : Feature P) : result (option WardRecord) :=
  let props := default ∅ (properties feature) in
  let wardId := ward_id_of props in
  let wardName :=
    js_or (js_or (get_prop props "name") (get_prop props "WARD_NAME"))
          (JStr ("Ward " ++ js_to_string wardId)) in
  if negb (truthy wardId) then Ok None
  else match simplify_geometry simplify_tolerance (geometry feature) with
       | TypeError => TypeError
       | Ok simplifiedGeometry =>
           Ok (Some {| ward_id := js_to_string wardId;
                       name := wardName;
                       municipality_id := js_or municipality JNull;
                       geojson := simplifiedGeometry;
                       ward_properties := props |})
       end.

(** The loop that fills [wardsToInsert]. *)
Fixpoint collect_wards (municipality : JSValue) (simplify_tolerance : Q)
  (fs : list (Feature P)) : result (list WardRecord) :=
  match fs with
  | [] => Ok []
  | feature :: rest =>
      match ward_of_feature municipality simplify_tolerance feature with
      | TypeError => TypeError
      | Ok ward =>
          match collect_wards municipality simplify_tolerance rest with
          | TypeError => TypeError
          | Ok wards => Ok (match ward with Some w => w :: wards | None => wards end)
          end
      end
  end.

Definition batchSize : nat := 100.

(** [for (let i = 0; i < wardsToInsert.length; i += batchSize)], with the
    number of iterations bounded by [fuel]: [None] when the fuel runs out,
    [inl message] when a batch fails, [inr insertedCount] at the end. *)
Fixpoint insert_batches (fuel i insertedCount : nat) (wardsToInsert : list WardRecord)
  : option (string + nat) :=
  if (i <? length wardsToInsert)%nat then
    match fuel with
    | O => None
    | S fuel' =>
        let batch := slice i (i + batchSize) wardsToInsert in
        match upsert batch with
        | Some message => Some (inl message)
        | None =>
            insert_batches fuel' (i + batchSize) (insertedCount + length batch)
              wardsToInsert
        end
    end
  else Some (inr insertedCount).

(** The handler of [POST /import] after the two middlewares.  The body is
    [{geojson_url, municipality_id, simplify_tolerance = 0.001}]; [fetched]
    is what [fetch(geojson_url)] gives, with [features] of the body [None]
    when it is missing or not an array. *)
Definition import_wards (geojson_url municipality : JSValue)
  (simplify_tolerance : option Q) (fetched : FetchOutcome (FeatureCollection P))
  : option HttpResponse :=
  let tolerance := default 0.001%Q simplify_tolerance in
  if negb (truthy geojson_url) then Some (Status400 "GeoJSON URL is required")
  else match fetched with
  | FetchRejected _ => Some Status500
  | Response false _ _ => Some (Status400 "Failed to fetch GeoJSON data")
  | Response true _ None => Some Status500
  | Response true _ (Some geojsonData) =>
      match features geojsonData with
      | None => Some (Status400 "Invalid GeoJSON format")
      | Some fs =>
          match collect_wards municipality tolerance fs with
          | TypeError => Some Status500
          | Ok wardsToInsert =>
              if (length wardsToInsert =? 0)%nat
              then Some (Status400 "No valid wards found in GeoJSON")
              else match insert_batches (length wardsToInsert) 0 0 wardsToInsert with
                   | None => None
                   | Some (inl message) =>
                       Some (Status400 ("Failed to insert ward batch: " ++ message))
                   | Some (inr insertedCount) =>
                       Some (Success insertedCount (length fs))
                   end
          end
      end
  end.

(** A feature has a resolvable identifier when one of the three spellings
    holds a truthy value. *)
Definition has_ward_id (feature : Feature P) : bool :=
  truthy (ward_id_of (default ∅ (properties feature))).


End Ingestion.
End Ingestion.

(** ** Rendering ([renderGeoJSONPolygons], [shouldRenderFeature], the map view) *)

Module Rendering.

(** The style options, and whether [onPress] was given. *)
Record RenderOptions : Type := {
  strokeColor : string;
  fillColor : string;
  strokeWidth : Q;
  onPress : bool
}.

(** [{strokeColor = '#2196F3', fillColor = 'rgba(33, 150, 243, 0.1)',
    strokeWidth = 1, onPress = null} = options]. *)
Definition default_options : RenderOptions :=
  {| strokeColor := "#2196F3"; fillColor := "rgba(33, 150, 243, 0.1)";
     strokeWidth := 1; onPress := false |}.

Inductive Platform : Type := ios | android.

Section Rendering.
Context {P : Type} `{Position P}.

(** The conversion of an array index in a template literal. *)
Variable index_to_string : nat -> string.

(** An item of the array [polygons]; [pressable] stands for the closure
    [onPress ? () => onPress(feature) : undefined]. *)
Record RenderedPolygon : Type := {
  id : JSValue;
  coordinates : list LatLng;
  style : RenderOptions;
  feature : Feature P;
  pressable : bool
}.

(** [coord => ({latitude: coord[1], longitude: coord[0]})]. *)
Definition to_latlng (coord : P) : LatLng :=
  {| latitude := coord1 coord; longitude := coord0 coord |}.

(** The callback of [feature.geometry.coordinates.forEach] on a
    MultiPolygon, from [polyIndex] on; [polygon[0].map] throws on a polygon
    without ring. *)
Fixpoint render_polygons (options : RenderOptions) (f : Feature P) (index polyIndex : nat)
  (polygons : list (list (list P))) : result (list RenderedPolygon) :=
  match polygons with
  | [] => Ok []
  | polygon :: rest =>
      match polygon with
      | [] => TypeError
      | ring :: _ =>
          match render_polygons options f index (S polyIndex) rest with
          | TypeError => TypeError
          | Ok items =>
              Ok ({| id := js_or (get_prop_opt (properties f) "id")
                                 (JStr ("multipolygon-" ++ index_to_string index
                                        ++ "-" ++ index_to_string polyIndex));
                     coordinates := map to_latlng ring;
                     style := options;
                     feature := f;
                     pressable := onPress options |} :: items)
          end
      end
  end.

(** The callback of [geoJsonData.features.forEach]: what it pushes. *)
Definition render_feature (options : RenderOptions) (f : Feature P) (index : nat)
  : result (list RenderedPolygon) :=
  match geometry f with
  | Some (Polygon rings) =>
      match rings with
      | [] => TypeError
      | ring :: _ =>
          Ok [{| id := js_or (get_prop_opt (properties f) "id")
                             (JStr ("polygon-" ++ index_to_string index));
                 coordinates := map to_latlng ring;
                 style := options;
                 feature := f;
                 pressable := onPress options |}]
      end
  | Some (MultiPolygon polygons) => render_polygons options f index 0 polygons
  | None => Ok []
  end.

Fixpoint render_features (options : RenderOptions) (index : nat) (fs : list (Feature P))
  : result (list RenderedPolygon) :=
  match fs with
  | [] => Ok []
  | f :: rest =>
      match render_feature options f index with
      | TypeError => TypeError
      | Ok items =>
          match render_features options (S index) rest with
          | TypeError => TypeError
          | Ok more => Ok (items ++ more)
          end
      end
  end.

(** [if (!geoJsonData?.features) return []]. *)
Definition renderGeoJSONPolygons (geoJsonData : option (FeatureCollection P))
  (options : RenderOptions) : result (list RenderedPolygon) :=
  match geoJsonData with
  | Some g =>
      match features g with
      | Some fs => render_features options 0 fs
      | None => Ok []
      end
  | None => Ok []
  end.

(** [(feature.geometry.coordinates[0] || []).length]: the positions of the
    first ring of a Polygon, the rings of the first polygon of a
    MultiPolygon. *)
Definition first_length (g : Geometry P) : nat :=
  match g with
  | Polygon rings => match rings with ring :: _ => length ring | [] => 0%nat end
  | MultiPolygon polygons =>
      match polygons with polygon :: _ => length polygon | [] => 0%nat end
  end.

(** [shouldRenderFeature(feature, zoomLevel)]. *)
Definition shouldRenderFeature (f : Feature P) (zoomLevel : Q) : bool :=
  match geometry f with
  | None => false
  | Some g =>
      if num_lt zoomLevel 8 then (first_length g <? 50)%nat
      else if num_lt zoomLevel 12 then (first_length g <? 100)%nat
      else true
  end.

(** [Platform.OS === 'ios' ? 50 : 25]. *)
Definition maxPolygons (os : Platform) : nat :=
  match os with
  | ios => 50%nat
  | android => 25%nat
  end.

(** The memo [wardPolygons] of the map view, before the polygons are turned
    into components: [null] when the wards are hidden, missing or
    loading. *)
Definition wardPolygons (os : Platform) (options : RenderOptions)
  (showWards loading : bool) (zoomLevel : Q)
  (geoJsonData : option (FeatureCollection P))
  : result (option (list RenderedPolygon)) :=
  if negb showWards || loading then Ok None
  else match geoJsonData with
  | None => Ok None
  | Some g =>
      match renderGeoJSONPolygons (Some g) options with
      | TypeError => TypeError
      | Ok polygons =>
          Ok (Some (slice 0 (maxPolygons os)
                      (List.filter (fun polygon => shouldRenderFeature (feature polygon) zoomLevel)
                         polygons)))
      end
  end.

(** The polygons a feature gives: one for a Polygon, one for each polygon
    of a MultiPolygon. *)
Definition polygon_count (f : Feature P) : nat :=
  match geometry f with
  | Some (Polygon _) => 1%nat
  | Some (MultiPolygon polygons) => length polygons
  | None => 0%nat
  end.

End Rendering.
End Rendering.

(** ** Rate limiting ([debounce], [throttle]) *)

Module RateLimit.

(** What happens to a limited function: it is called with arguments, or a
    timer it set fires.  A timer fires at some time after it was set; the
    delay itself is not modelled. *)
Inductive Event (A : Type) : Type :=
| Call (args : A)
| Fire.
Arguments Call {A} args.
Arguments Fire {A}.

Section RateLimit.
Context {A : Type}.

(** [debounce(func, wait)]: the state is the timer [timeout] that is
    pending, with the arguments its closure [later] holds.  A call clears
    the timer and sets a new one; the timer that fires calls [func].  The
    result is the new state and the arguments [func] is called with. *)
Definition debounce_step (timeout : option A) (e : Event A) : option A * list A :=
  match e with
  | Call args => (Some args, [])
  | Fire =>
      match timeout with
      | Some args => (None, [args])
      | None => (None, [])
      end
  end.

(** [throttle(func, limit)]: the state is [inThrottle], true exactly while
    the timer that resets it is pending. *)
Definition throttle_step (inThrottle : bool) (e : Event A) : bool * list A :=
  match e with
  | Call args => if inThrottle then (true, []) else (true, [args])
  | Fire => (false, [])
  end.

(** The calls of [func] along a list of events. *)
Fixpoint run {S : Type} (step : S -> Event A -> S * list A) (st : S)
  (events : list (Event A)) : list A :=
  match events with
  | [] => []
  | e :: rest => let '(st', calls) := step st e in calls ++ run step st' rest
  end.

Definition debounce (events : list (Event A)) : list A := run debounce_step None events.
Definition throttle (events : list (Event A)) : list A := run throttle_step false events.

(** The arguments of the calls among the events, and the number of timers
    that fire. *)
Definition call_args (events : list (Event A)) : list A :=
  flat_map (fun e => match e with Call args => [args] | Fire => [] end) events.

Definition fires (events : list (Event A)) : nat :=
  length (List.filter (fun e => match e with Fire => true | Call _ => false end) events).

End RateLimit.
End RateLimit.

(** ** Ward boundaries served and looked up (the route
    [/boundaries/simplified], the [useWards] hook) *)

Module WardLookup.
Section WardLookup.
Context {P : Type} `{Position P}.

(** The conversion of a template literal. *)
Variable js_to_string : JSValue -> string.

(** A row of the query [select('ward_id, name, geojson')]. *)
Record WardRow : Type := {
  row_ward_id : JSValue;
  row_name : JSValue;
  row_geojson : option (Geometry P)
}.

(** The callback of [wards.map] in the route. *)
Definition boundary_feature (ward : WardRow) : Feature P :=
  {| properties := Some (<["ward_id" := row_ward_id ward]> (<["name" := row_name ward]> ∅));
     geometry := row_geojson ward |}.

(** The route: the query gives an error or rows; the answer is status 400
    or the collection. *)
Definition simplified_boundaries (query : option (list WardRow))
  : option (FeatureCollection P) :=
  match query with
  | None => None
  | Some wards => Some {| features := Some (map boundary_feature wards) |}
  end.

(** What [findWardByLocation] returns, and the items of [getAllWards]. *)
Record WardSummary : Type := {
  summary_id : JSValue;
  summary_name : JSValue;
  summary_municipality : JSValue;
  summary_properties : option (gmap string JSValue);
  summary_geometry : option (Geometry P)
}.

(** [ward.properties?.id || ward.properties?.WARD_ID], and so on. *)
Definition summary_of (with_geometry : bool) (ward : Feature P) : WardSummary :=
  let props := properties ward in
  {| summary_id := js_or (get_prop_opt props "id") (get_prop_opt props "WARD_ID");
     summary_name :=
       js_or (js_or (get_prop_opt props "name") (get_prop_opt props "WARD_NAME"))
             (JStr ("Ward " ++ js_to_string (get_prop_opt props "WARD_ID")));
     summary_municipality :=
       js_or (get_prop_opt props "municipality") (get_prop_opt props "MUNICIPALITY");
     summary_properties := props;
     summary_geometry := if with_geometry then geometry ward else None |}.

(** [findWardByLocation(latitude, longitude)] on the state of the hook. *)
Definition findWardByLocation (geoJsonData : option (FeatureCollection P))
  (loading : bool) (lat lng : Q) : result (option WardSummary) :=
  match geoJsonData with
  | None => Ok None
  | Some g =>
      if loading then Ok None
      else match Geo.findWardForPoint (Some {| latitude := lat; longitude := lng |})
                   (Some g) with
           | TypeError => TypeError
           | Ok None => Ok None
           | Ok (Some ward) => Ok (Some (summary_of false ward))
           end
  end.

End WardLookup.
End WardLookup.

(** * Properties *)

(** ** Numbers *)

Lemma num_gt_spec (x y : Q) : num_gt x y = true <-> (y < x)%Q.
Proof.
  unfold num_gt. rewrite negb_true_iff, <- not_true_iff_false, Qle_bool_iff.
  split; [apply Qnot_le_lt | apply Qlt_not_le].
Qed.

Lemma num_lt_spec (x y : Q) : num_lt x y = true <-> (x < y)%Q.
Proof. apply (num_gt_spec y x). Qed.

Lemma num_ge_spec (x y : Q) : num_ge x y = true <-> (y <= x)%Q.
Proof. apply Qle_bool_iff. Qed.

Lemma num_le_spec (x y : Q) : num_le x y = true <-> (x <= y)%Q.
Proof. apply Qle_bool_iff. Qed.

(** ** Arrays *)

Section ArrayFacts.
Context {A : Type}.

Lemma last_item_app (l : list A) (x : A) : last_item (l ++ [x]) = Some x.
Proof.
  unfold last_item. rewrite map_app. simpl. apply last_last.
Qed.


Lemma last_item_nil_inv (l : list A) : last_item l = None -> l = [].
Proof.
  destruct l as [|x l] using rev_ind; [reflexivity|].
  rewrite last_item_app. discriminate.
Qed.

Lemma last_item_some (x : A) (l : list A) : exists y, last_item (x :: l) = Some y.
Proof.
  destruct (last_item (x :: l)) as [y|] eqn:E; [eauto|].
  apply last_item_nil_inv in E. discriminate.
Qed.

Lemma js_filter_sublist (keep : A -> nat -> bool) (l : list A) :
  forall index, sublist (js_filter keep index l) l.
Proof.
  induction l as [|x l IH]; intros index; simpl.
  - constructor.
  - destruct (keep x index); [apply sublist_skip | apply sublist_cons]; apply IH.
Qed.

(** The first item is kept when its index passes the test. *)
Lemma js_filter_head (keep : A -> nat -> bool) (x : A) (l : list A) (index : nat) :
  keep x index = true ->
  js_filter keep index (x :: l) = x :: js_filter keep (S index) l.
Proof. intros E. simpl. rewrite E. reflexivity. Qed.

(** Filtering on the index alone, every [step]-th item: between two kept
    items lie [step - 1] dropped ones. *)
Lemma stride_length (step : nat) (l : list A) :
  (0 < step)%nat ->
  forall index,
    (step * length (js_filter (fun _ i => multiple_of step i) index l)
     + (step - index mod step) mod step <= length l + step - 1)%nat.
Proof.
  intros Hstep. unfold multiple_of.
  destruct (Nat.eqb_spec step 0) as [->|_]; [lia|].
  induction l as [|x l IH]; intros index; simpl.
  - pose proof (Nat.mod_upper_bound (step - index mod step) step). lia.
  - specialize (IH (S index)).
    pose proof (Nat.mod_upper_bound index step).
    pose proof (Nat.mod_upper_bound (S index) step).
    pose proof (Nat.div_mod_eq index step).
    pose proof (Nat.div_mod_eq (S index) step).
    destruct (Nat.eqb_spec (index mod step) 0) as [E|E]; simpl.
    + rewrite E, Nat.sub_0_r, Nat.Div0.mod_same.
      destruct (Nat.eq_dec step 1) as [->|Hne].
      * rewrite !Nat.mod_1_r in *. simpl in *. lia.
      * assert (Hs : (S index mod step = 1)%nat).
        { symmetry. apply (Nat.mod_unique _ _ (index / step)); lia. }
        rewrite Hs in IH. rewrite (Nat.mod_small (step - 1)) in IH by lia. lia.
    + rewrite (Nat.mod_small (step - index mod step)) by lia.
      destruct (Nat.eq_dec (S (index mod step)) step) as [Hw|Hw].
      * assert (Hs : (S index mod step = 0)%nat).
        { symmetry. apply (Nat.mod_unique _ _ (S (index / step))); lia. }
        rewrite Hs, Nat.sub_0_r, Nat.Div0.mod_same in IH. lia.
      * assert (Hs : (S index mod step = S (index mod step))%nat).
        { symmetry. apply (Nat.mod_unique _ _ (index / step)); lia. }
        rewrite Hs in IH. rewrite (Nat.mod_small (step - S (index mod step))) in IH by lia.
        lia.
Qed.

End ArrayFacts.

(** ** Simplifier *)

Module SimplifierFacts.
Import Simplifier.

Lemma ceil_div50_ge (n : nat) : (n <= 50 * ceil_div50 n)%nat.
Proof.
  unfold ceil_div50.
  set (x := (inject_Z (Z.of_nat n) / 50)%Q).
  pose proof (Qle_ceiling x) as Hc.
  assert (Hx : (inject_Z (Z.of_nat n) == 50 * x)%Q) by (unfold x; field).
  assert (Hz : (inject_Z (Z.of_nat n) <= inject_Z (50 * Qceiling x))%Q).
  { rewrite inject_Z_mult, Hx. change (inject_Z 50) with 50%Q. lra. }
  rewrite <- Zle_Qle in Hz. lia.
Qed.

Lemma ceil_div50_pos (n : nat) : (0 < n)%nat -> (0 < ceil_div50 n)%nat.
Proof. pose proof (ceil_div50_ge n). lia. Qed.

Section SimplifierFacts.
Context {P : Type} `{Position P}.
Variable simplify : FeatureCollection P -> Q -> bool -> Outcome (FeatureCollection P).

(** The positions [reduce_ring] keeps by the stride. *)
Definition strided (coords : list P) : list P :=
  js_filter (fun _ index => multiple_of (ceil_div50 (length coords)) index) 0 coords.

Lemma strided_head (first : P) (rest : list P) :
  exists kept, strided (first :: rest) = first :: kept.
Proof.
  unfold strided. eexists. apply js_filter_head.
  unfold multiple_of.
  pose proof (ceil_div50_pos (length (first :: rest))) as Hpos.
  destruct (Nat.eqb_spec (ceil_div50 (length (first :: rest))) 0) as [E|E].
  - simpl in *. lia.
  - rewrite Nat.Div0.mod_0_l. reflexivity.
Qed.

Lemma strided_length (coords : list P) :
  (0 < length coords)%nat -> (length (strided coords) <= 50)%nat.
Proof.
  intros Hlen. unfold strided.
  pose proof (ceil_div50_ge (length coords)) as Hge.
  pose proof (ceil_div50_pos _ Hlen) as Hpos.
  pose proof (stride_length (ceil_div50 (length coords)) coords Hpos 0%nat) as Hs.
  rewrite Nat.Div0.mod_0_l, Nat.sub_0_r, Nat.Div0.mod_same in Hs.
  nia.
Qed.

(** [reduce_ring] keeps the first position and ends on a position with the
    coordinates of the last one. *)
Lemma reduce_ring_ends (first : P) (rest : list P) :
  exists kept final final',
    reduce_ring (first :: rest) = first :: kept
    /\ last_item (reduce_ring (first :: rest)) = Some final'
    /\ last_item (first :: rest) = Some final
    /\ coord0 final' = coord0 final /\ coord1 final' = coord1 final.
Proof.
  destruct (strided_head first rest) as [kept Hk].
  destruct (last_item_some first rest) as [final Hf].
  unfold reduce_ring. fold (strided (first :: rest)).
  rewrite Hk, Hf.
  destruct (last_item_some first kept) as [final' Hf'].
  rewrite Hf'. simpl strict_neq.
  destruct (same_object final' final) eqn:Hsame; simpl.
  - exists kept, final, final'. rewrite Hf'.
    destruct (same_object_coords _ _ Hsame). auto.
  - exists (kept ++ [final]), final, final.
    change (first :: kept ++ [final]) with ((first :: kept) ++ [final]).
    rewrite last_item_app. auto.
Qed.

Lemma reduce_ring_closed (coords : list P) :
  ring_closed coords -> ring_closed (reduce_ring coords).
Proof.
  destruct coords as [|first rest]; [intros []|].
  destruct (reduce_ring_ends first rest) as (kept & final & final' & Hr & Hl' & Hl & H0 & H1).
  unfold ring_closed. rewrite Hr in Hl' |- *. rewrite Hl', Hl. intros [E0 E1]. split; congruence.
Qed.

Lemma reduce_ring_length (coords : list P) :
  (0 < length coords)%nat -> (length (reduce_ring coords) <= 51)%nat.
Proof.
  intros Hlen. pose proof (strided_length coords Hlen) as Hs.
  unfold reduce_ring. fold (strided coords).
  destruct (strict_neq _ _); [|lia].
  destruct (last_item coords); [|lia].
  rewrite length_app. simpl. lia.
Qed.

Lemma cap_feature_closed (f : Feature P) (ring : list P) (others : list (list P)) :
  geometry (cap_feature f) = Some (Polygon (ring :: others)) ->
  (forall r o, geometry f = Some (Polygon (r :: o)) -> ring_closed r) ->
  ring_closed ring.
Proof.
  unfold cap_feature. intros Hg Hin.
  destruct (geometry f) as [[[|coords rest]|polys]|] eqn:E;
    try (rewrite E in Hg; discriminate).
  destruct (100 <? length coords)%nat.
  - simpl in Hg. injection Hg as <- <-. apply reduce_ring_closed. eapply Hin; reflexivity.
  - rewrite E in Hg. injection Hg as <- <-. eapply Hin; reflexivity.
Qed.

(** C1.  When the external simplifier keeps the primary rings of the
    Polygon features closed (a simplifier of the Douglas-Peucker class keeps
    the two ends of a line), so does [simplifyGeoJSON]: a ring the hard cap
    rewrites starts on the first position and ends on a position with the
    coordinates of the last one, re-appended if the stride dropped it; a
    call of the simplifier that throws gives back the input. *)
Theorem simplifyGeoJSON_keeps_rings_closed
  (Hsimplify : forall g tolerance,
     primary_rings_closed g ->
     match simplify g tolerance true with
     | Returns g' | Throws g' => primary_rings_closed g'
     end)
  (geojson : FeatureCollection P) (tolerance : Q) :
  primary_rings_closed geojson ->
  primary_rings_closed (simplifyGeoJSON simplify geojson tolerance).
Proof.
  intros Hin. unfold simplifyGeoJSON.
  pose proof (Hsimplify geojson tolerance Hin) as Hs.
  destruct (simplify geojson tolerance true) as [simplified|left]; [|exact Hs].
  destruct (features simplified) as [fs|] eqn:Ef; [|exact Hs].
  intros fs' f ring others Hfs Hf Hg. simpl in Hfs. injection Hfs as <-.
  apply in_map_iff in Hf as (f0 & <- & Hf0).
  apply (cap_feature_closed f0 ring others Hg).
  intros r o Hr. exact (Hs fs f0 r o Ef Hf0 Hr).
Qed.

Lemma cap_feature_polygon (f : Feature P) (coords : list P) (others : list (list P)) :
  geometry f = Some (Polygon (coords :: others)) ->
  (100 < length coords)%nat ->
  geometry (cap_feature f) = Some (Polygon (reduce_ring coords :: others)).
Proof.
  intros Hg Hlen. unfold cap_feature. rewrite Hg.
  apply Nat.ltb_lt in Hlen. rewrite Hlen. reflexivity.
Qed.

Lemma cap_feature_length (f : Feature P) (ring : list P) (others : list (list P)) :
  geometry (cap_feature f) = Some (Polygon (ring :: others)) ->
  (length ring <= 100)%nat.
Proof.
  unfold cap_feature. intros Hg.
  destruct (geometry f) as [[[|coords rest]|polys]|] eqn:E;
    try (rewrite E in Hg; discriminate).
  destruct (Nat.ltb_spec 100 (length coords)) as [Hlen|Hlen].
  - simpl in Hg. injection Hg as <- <-.
    pose proof (reduce_ring_length coords). lia.
  - rewrite E in Hg. injection Hg as <- <-. exact Hlen.
Qed.

(** C2, amended.  When the external simplifier returns a collection, the
    primary ring of every Polygon feature of the output has at most 100
    positions: a primary ring that is still longer than 100 is replaced by
    [reduce_ring] of it, every k-th position with k = ceil(length / 50)
    and the last position re-appended if dropped, at most 51 positions. *)
Theorem hard_cap_bounds_primary_rings
  (geojson simplified : FeatureCollection P) (tolerance : Q) (fs : list (Feature P)) :
  simplify geojson tolerance true = Returns simplified ->
  features simplified = Some fs ->
  features (simplifyGeoJSON simplify geojson tolerance) = Some (map cap_feature fs)
  /\ (forall f coords others,
        In f fs -> geometry f = Some (Polygon (coords :: others)) ->
        (100 < length coords)%nat ->
        geometry (cap_feature f) = Some (Polygon (reduce_ring coords :: others))
        /\ (length (reduce_ring coords) <= 51)%nat)
  /\ (forall f ring others,
        In f (map cap_feature fs) ->
        geometry f = Some (Polygon (ring :: others)) ->
        (length ring <= 100)%nat).
Proof.
  intros Es Ef. unfold simplifyGeoJSON. rewrite Es, Ef. split; [reflexivity|]. split.
  - intros f coords others _ Hg Hlen. split.
    + apply cap_feature_polygon; assumption.
    + apply reduce_ring_length. lia.
  - intros f ring others Hin Hg.
    apply in_map_iff in Hin as (f0 & <- & _).
    eapply cap_feature_length; eassumption.
Qed.

End SimplifierFacts.
End SimplifierFacts.

(** Concrete collections over positions without sharing. *)
Module SimplifierExamples.
Import Simplifier.

(** A simplifier that finds nothing to remove, and one that reads
    [feature.geometry.type] of every feature first and throws on a feature
    without geometry. *)
Definition keep_all (g : FeatureCollection (Q * Q)) (_ : Q) (_ : bool)
  : Outcome (FeatureCollection (Q * Q)) := Returns g.

Definition no_geometry (f : Feature (Q * Q)) : bool :=
  match geometry f with
  | None => true
  | Some _ => false
  end.

Definition throw_on_null (g : FeatureCollection (Q * Q)) (_ : Q) (_ : bool)
  : Outcome (FeatureCollection (Q * Q)) :=
  if existsb no_geometry (default [] (features g)) then Throws g else Returns g.

(** [n] positions going up and down between the heights 0 and 1. *)
Definition zigzag (n : nat) : list (Q * Q) :=
  map (fun k => (inject_Z (Z.of_nat k), if Nat.even k then 0%Q else 1%Q)) (seq 0 n).

(** A closed ring of 102 positions. *)
Definition ring102 : list (Q * Q) := zigzag 101 ++ [(0%Q, 0%Q)].

Definition polygon102 : Feature (Q * Q) :=
  {| properties := None; geometry := Some (Polygon [ring102]) |}.

Definition multipolygon102 : Feature (Q * Q) :=
  {| properties := None; geometry := Some (MultiPolygon [[ring102]]) |}.

Definition polygon101 : Feature (Q * Q) :=
  {| properties := None; geometry := Some (Polygon [zigzag 101]) |}.

Lemma polygon102_closed : primary_rings_closed {| features := Some [polygon102] |}.
Proof.
  intros fs f ring others [= <-] [<-|[]] [= <- <-]. split; reflexivity.
Qed.

Lemma keep_all_closed (g : FeatureCollection (Q * Q)) (tolerance : Q) :
  primary_rings_closed g ->
  match keep_all g tolerance true with
  | Returns g' | Throws g' => primary_rings_closed g'
  end.
Proof. intros Hg. exact Hg. Qed.

Lemma simplifyGeoJSON_keeps_rings_closed_witness :
  ring_lengths (simplifyGeoJSON keep_all {| features := Some [polygon102] |} 0.005)
    = [[35%nat]]
  /\ primary_rings_closed
       (simplifyGeoJSON keep_all {| features := Some [polygon102] |} 0.005).
Proof.
  split; [vm_compute; reflexivity|].
  apply (SimplifierFacts.simplifyGeoJSON_keeps_rings_closed keep_all keep_all_closed).
  exact polygon102_closed.
Defined.

Lemma hard_cap_bounds_primary_rings_witness :
  geometry (cap_feature polygon102) = Some (Polygon [reduce_ring ring102])
  /\ (length (reduce_ring ring102) <= 51)%nat.
Proof.
  destruct (SimplifierFacts.hard_cap_bounds_primary_rings keep_all
              {| features := Some [polygon102] |} {| features := Some [polygon102] |}
              0.005 [polygon102] eq_refl eq_refl) as (_ & Hcap & _).
  apply (Hcap polygon102 ring102 []); [left; reflexivity | reflexivity | vm_compute; lia].
Defined.

(** A ring in a heap whose two last entries are one object: the stride
    ends on that object, nothing is re-appended, and the ring stays
    closed. *)
Definition shared_heap (address : nat) : Q * Q :=
  if ((address =? 0) || (address =? 99))%nat then (0%Q, 0%Q)
  else (inject_Z (Z.of_nat address), 1%Q).

Definition shared_ring : list nat := seq 0 100 ++ [99%nat].

Example shared_last_position :
  @reduce_ring nat (heap_Position shared_heap) shared_ring
  = map (fun k => (3 * k)%nat) (seq 0 34)
  /\ @ring_closed nat (heap_Position shared_heap)
       (@reduce_ring nat (heap_Position shared_heap) shared_ring).
Proof.
  split; [vm_compute; reflexivity|].
  apply (@SimplifierFacts.reduce_ring_closed nat (heap_Position shared_heap)).
  split; reflexivity.
Qed.

Definition unlocated : Feature (Q * Q) := {| properties := None; geometry := None |}.

(** C2 as stated fails: a closed ring of 102 positions of a MultiPolygon
    feature passes through [simplifyGeoJSON] with its 102 positions, and so
    does the primary ring of a Polygon feature when the simplifier throws,
    here on the feature without geometry that follows it. *)
Lemma long_rings_survive :
  ring_lengths {| features := Some [multipolygon102] |} = [[102%nat]]
  /\ ring_lengths (simplifyGeoJSON keep_all {| features := Some [multipolygon102] |} 0.005)
     = [[102%nat]]
  /\ ring_lengths {| features := Some [polygon102; unlocated] |} = [[102%nat]; []]
  /\ ring_lengths
       (simplifyGeoJSON throw_on_null {| features := Some [polygon102; unlocated] |} 0.005)
     = [[102%nat]; []]
  /\ ~ (102 <= 100)%nat.
Proof.
  split; [vm_compute; reflexivity|].
  split; [vm_compute; reflexivity|].
  split; [vm_compute; reflexivity|].
  split; [vm_compute; reflexivity|lia].
Qed.

End SimplifierExamples.

(** ** Spatial filter *)

Module SpatialFilterFacts.
Import SpatialFilter BoundaryStore.
Section SpatialFilterFacts.
Context {P : Type} `{Position P}.

(** [isPointInBounds] is the inclusive range check on both axes. *)
Lemma isPointInBounds_inclusive (point : LatLng) (bounds : Bounds) :
  isPointInBounds (Some point) (Some bounds) = true
  <-> (latitude (southWest bounds) <= latitude point
       /\ latitude point <= latitude (northEast bounds)
       /\ longitude (southWest bounds) <= longitude point
       /\ longitude point <= longitude (northEast bounds))%Q.
Proof.
  unfold isPointInBounds.
  rewrite !andb_true_iff, !num_ge_spec, !num_le_spec. tauto.
Qed.

Lemma keep_feature_stride (bounds : Bounds) (total : nat) (fs : list (Feature P)) :
  (50 < total)%nat ->
  forall index,
    js_filter (keep_feature (expand bounds) total) index fs
    = List.filter (vertex_in_bounds bounds)
        (js_filter (fun _ i => (i mod 2 =? 0)%nat) index fs).
Proof.
  intros Htotal. apply Nat.ltb_lt in Htotal.
  induction fs as [|f fs IH]; intros index; cbn [js_filter]; [reflexivity|].
  unfold keep_feature at 1. rewrite Htotal, andb_true_r.
  destruct (index mod 2 =? 0)%nat; cbn [negb List.filter].
  - fold (vertex_in_bounds bounds f).
    destruct (vertex_in_bounds bounds f); rewrite IH; reflexivity.
  - apply IH.
Qed.

Lemma evens_length {A : Type} (l : list A) : (2 * length (evens l) <= length l + 1)%nat.
Proof.
  pose proof (stride_length 2 l ltac:(lia) 0%nat) as Hs.
  change (2 * length (evens l) + 0 <= length l + 2 - 1)%nat in Hs. lia.
Qed.

Lemma filter_sublist {A : Type} (keep : A -> bool) (l : list A) :
  sublist (List.filter keep l) l.
Proof.
  induction l as [|x l IH]; simpl; [constructor|].
  destruct (keep x); [apply sublist_skip | apply sublist_cons]; exact IH.
Qed.

Lemma filter_length_le {A : Type} (keep : A -> bool) (l : list A) :
  (length (List.filter keep l) <= length l)%nat.
Proof. apply sublist_length, filter_sublist. Qed.

(** C8.  On more than 50 features and with bounds, [filterGeoJSONByBounds]
    returns the features at the even indices that pass the bounds test: the
    stride comes before the test, so at most half of the features (rounded
    up) remain, 30 of 60; what [useGeoJSON] exposes is the first 100 of
    them, a subsequence of the input. *)
Theorem filter_strides_then_tests (fs : list (Feature P)) (bounds : Bounds) :
  (50 < length fs)%nat ->
  let kept := List.filter (vertex_in_bounds bounds) (evens fs) in
  features (filterGeoJSONByBounds {| features := Some fs |} (Some bounds)) = Some kept
  /\ (2 * length kept <= length fs + 1)%nat
  /\ (length fs = 60%nat -> (length kept <= 30)%nat)
  /\ filteredGeoJSON (Some {| features := Some fs |}) (Some bounds)
     = Ok (Some {| features := Some (firstn 100 kept) |})
  /\ (length (firstn 100 kept) <= 100)%nat
  /\ sublist (firstn 100 kept) fs.
Proof.
  intros Hlen kept.
  assert (Hout : features (filterGeoJSONByBounds {| features := Some fs |} (Some bounds))
                 = Some kept).
  { simpl. f_equal. apply keep_feature_stride. exact Hlen. }
  assert (Hkept : (2 * length kept <= length fs + 1)%nat).
  { pose proof (filter_length_le (vertex_in_bounds bounds) (evens fs)).
    pose proof (evens_length fs). unfold kept. lia. }
  split; [exact Hout|]. split; [exact Hkept|]. split; [lia|]. split.
  - unfold filteredGeoJSON. rewrite Hout. reflexivity.
  - split; [apply firstn_le_length|].
    etransitivity; [apply sublist_take|].
    etransitivity; [apply filter_sublist|]. apply js_filter_sublist.
Qed.

(** C10.  Without bounds [useGeoJSON] exposes the first 50 features of the
    loaded collection, and [totalFeatures] counts all of them. *)
Theorem no_bounds_first_fifty (fs : list (Feature P)) (busy : bool)
  (err : option ErrorMessage) (source : DataSource) :
  let st := {| geoJsonData := Some {| features := Some fs |}; loading := busy;
               error := err; dataSource := source |} in
  result_geoJsonData (useGeoJSON None st) = Ok (Some {| features := Some (firstn 50 fs) |})
  /\ totalFeatures (useGeoJSON None st) = length fs
  /\ length (firstn 50 fs) = Nat.min 50 (length fs).
Proof.
  simpl. split; [reflexivity|]. split; [reflexivity|]. apply length_firstn.
Qed.

End SpatialFilterFacts.
End SpatialFilterFacts.

(** ** Boundary store *)

Module BoundaryStoreFacts.
Import SpatialFilter BoundaryStore.

(** The age test of [getCachedGeoJSON] in milliseconds: more than two
    hours. *)
Lemma cache_age_expired (now written : Z) :
  num_gt (inject_Z (now - written) / (1000 * 60 * 60))%Q CACHE_EXPIRY_HOURS = true
  <-> (7200000 < now - written)%Z.
Proof.
  rewrite num_gt_spec. unfold CACHE_EXPIRY_HOURS.
  rewrite (Zlt_Qlt 7200000 (now - written)).
  set (d := inject_Z (now - written)).
  change (inject_Z 7200000) with 7200000%Q.
  assert (Hq : (d / (1000 * 60 * 60) == d * (1 # 3600000))%Q) by (field; discriminate).
  rewrite Hq. split; intros Hd; lra.
Qed.

Lemma settle_issue (op : StorageOp) (s : AsyncStorage) :
  settle (issue op s) = {| store := apply_op (store (settle s)) op; pending := [] |}.
Proof. unfold settle, issue. simpl. rewrite fold_left_app. reflexivity. Qed.

Section BoundaryStoreFacts.
Context {P : Type} `{Position P}.
Variable simplify : FeatureCollection P -> Q -> bool -> Outcome (FeatureCollection P).
Variable json_parse : string -> option (@CacheData P).
Variable json_stringify : @CacheData P -> string.

Abbreviation getCached := (getCachedGeoJSON json_parse).
Abbreviation load := (loadGeoJSON simplify json_parse json_stringify).
Abbreviation network := (load_from_network simplify json_stringify).
Abbreviation refresh := (refreshGeoJSON simplify json_parse json_stringify).

Lemma load_miss (tolerance : Q) (now_read now_write : Z)
  (primary fallback : FetchOutcome (FeatureCollection P))
  (s s1 : AsyncStorage) (st : HookState) :
  getCached now_read s = (None, s1) ->
  load tolerance now_read now_write primary fallback s st
  = network tolerance now_write primary fallback s1 (started st).
Proof. intros E. unfold loadGeoJSON. rewrite E. reflexivity. Qed.

(** C5.  A stored entry written more than two hours (7 200 000 ms) before
    the read is a miss and is removed from the storage; a blob that is
    empty or cannot be read is a miss that leaves the storage alone; in
    both cases [loadGeoJSON] goes on to the network with what the read
    left. *)
Theorem stale_or_unreadable_entry_is_a_miss
  (now : Z) (s : AsyncStorage) (blob : string) :
  store (settle s) !! GEOJSON_CACHE_KEY = Some blob ->
  (forall entry,
     blob <> "" ->
     json_parse blob = Some entry ->
     (7200000 < now - timestamp entry)%Z ->
     getCached now s = (None, purged s)
     /\ store (purged s) !! GEOJSON_CACHE_KEY = None
     /\ forall tolerance now_write primary fallback st,
          load tolerance now now_write primary fallback s st
          = network tolerance now_write primary fallback (purged s) (started st))
  /\ (blob = "" \/ json_parse blob = None ->
      getCached now s = (None, settle s)
      /\ forall tolerance now_write primary fallback st,
           load tolerance now now_write primary fallback s st
           = network tolerance now_write primary fallback (settle s) (started st)).
Proof.
  intros Hblob. split.
  - intros entry Hne Hparse Hold.
    assert (Hget : getCached now s = (None, purged s)).
    { unfold getCachedGeoJSON, getItem. rewrite Hblob.
      apply String.eqb_neq in Hne. rewrite Hne, Hparse.
      apply cache_age_expired in Hold. rewrite Hold.
      unfold await_op. rewrite settle_issue. reflexivity. }
    split; [exact Hget|]. split.
    + apply lookup_delete_eq.
    + intros. apply load_miss. exact Hget.
  - intros Hbad.
    assert (Hget : getCached now s = (None, settle s)).
    { unfold getCachedGeoJSON, getItem. rewrite Hblob.
      destruct (String.eqb_spec blob "") as [_|Hne]; [reflexivity|].
      destruct Hbad as [Hempty|Hparse]; [contradiction|].
      rewrite Hparse. reflexivity. }
    split; [exact Hget|]. intros. apply load_miss. exact Hget.
Qed.

Lemma network_source (tolerance : Q) (now : Z)
  (primary fallback : FetchOutcome (FeatureCollection P))
  (s : AsyncStorage) (st : HookState) :
  error st = None ->
  error (snd (network tolerance now primary fallback s st)) = None ->
  dataSource (snd (network tolerance now primary fallback s st)) <> cache.
Proof.
  intros Hst. unfold load_from_network.
  destruct (fetch_raw primary fallback) as [message|[raw source]] eqn:Ef;
    [discriminate|].
  assert (Hsource : source <> cache).
  { unfold fetch_raw in Ef.
    destruct primary as [m|[] status [g|]]; try (injection Ef as <- <-; discriminate);
      destruct fallback as [m'|[] status' [g'|]]; try discriminate;
      injection Ef as <- <-; discriminate. }
  destruct (features _); simpl; [intros _; exact Hsource | discriminate].
Qed.

(** C6.  With an entry in the storage that a normal load would serve,
    [refreshGeoJSON] reads a miss: the removal it issued is served before
    the read, and the cycle continues on the network with the storage
    purged; when it ends without error its data source is not the cache. *)
Theorem refresh_bypasses_valid_entry
  (tolerance : Q) (now_read now_write : Z)
  (primary fallback : FetchOutcome (FeatureCollection P))
  (s : AsyncStorage) (st : HookState) (blob : string) (entry : CacheData) :
  store (settle s) !! GEOJSON_CACHE_KEY = Some blob ->
  blob <> "" ->
  json_parse blob = Some entry ->
  (now_read - timestamp entry <= 7200000)%Z ->
  load tolerance now_read now_write primary fallback s st
  = (settle s, {| geoJsonData := Some (data entry); loading := false;
                  error := None; dataSource := cache |})
  /\ getCached now_read (issue (RemoveItem GEOJSON_CACHE_KEY) s) = (None, purged s)
  /\ refresh tolerance now_read now_write primary fallback s st
     = network tolerance now_write primary fallback (purged s) (started st)
  /\ (error (snd (refresh tolerance now_read now_write primary fallback s st)) = None ->
      dataSource (snd (refresh tolerance now_read now_write primary fallback s st))
      <> cache).
Proof.
  intros Hblob Hne Hparse Hfresh.
  assert (Hget : getCached now_read (issue (RemoveItem GEOJSON_CACHE_KEY) s)
                 = (None, purged s)).
  { unfold getCachedGeoJSON, getItem. rewrite settle_issue. simpl.
    rewrite lookup_delete_eq. reflexivity. }
  assert (Hrefresh : refresh tolerance now_read now_write primary fallback s st
                     = network tolerance now_write primary fallback (purged s) (started st)).
  { unfold refreshGeoJSON. apply load_miss. exact Hget. }
  split.
  - unfold loadGeoJSON, getCachedGeoJSON, getItem. rewrite Hblob.
    apply String.eqb_neq in Hne. rewrite Hne, Hparse.
    destruct (num_gt _ CACHE_EXPIRY_HOURS) eqn:Hage; [|reflexivity].
    apply cache_age_expired in Hage. lia.
  - split; [exact Hget|]. split; [exact Hrefresh|].
    rewrite Hrefresh. apply network_source. reflexivity.
Qed.


End BoundaryStoreFacts.
End BoundaryStoreFacts.

(** ** Ingestion *)

Module IngestionFacts.
Import Ingestion.
Section IngestionFacts.
Context {P : Type} `{Position P}.
Variable js_to_string : JSValue -> string.
Variable upsert : list (@WardRecord P) -> option string.

Lemma slice_length {A : Type} (i n : nat) (l : list A) :
  length (slice i (i + n) l) = Nat.min n (length l - i).
Proof.
  unfold slice. rewrite length_firstn, length_skipn. f_equal. lia.
Qed.





End IngestionFacts.
End IngestionFacts.

Module IngestionExamples.
Import Ingestion.

Definition to_string (v : JSValue) : string :=
  match v with
  | JStr s => s
  | _ => ""
  end.

Definition accept_all (batch : list (@WardRecord (Q * Q))) : option string := None.

Definition square : Geometry (Q * Q) :=
  Polygon [[(0, 0); (4, 0); (4, 4); (0, 4); (0, 0)]]%Q.

Definition ward (key id : string) : Feature (Q * Q) :=
  {| properties := Some (<[key := JStr id]> ∅); geometry := Some square |}.

(** A feature with a name and no identifier property. *)
Definition anonymous : Feature (Q * Q) :=
  {| properties := Some (<["name" := JStr "Ward"]> ∅); geometry := Some square |}.

Definition three_features : list (Feature (Q * Q)) :=
  [ward "id" "1"; anonymous; ward "WARD_ID" "3"].



End IngestionExamples.

(** ** Point in polygon *)

(** Facts of the plane, on coordinates. *)
Module Plane.
Local Open Scope Q_scope.


(** The product of two vectors from the origin. *)
Definition wedge (ax ay bx by_ : Q) : Q := ax * by_ - ay * bx.









(** Directions not above the height of the point: [before s a c] when the
    direction [c] comes after [a] in the half turn. *)
Definition before (s ax ay cx cy : Q) : Prop :=
  0 < s * wedge ax ay cx cy \/ (ay == 0 /\ cy == 0 /\ s * ax < 0 /\ 0 < s * cx).



End Plane.

Module PointInPolygonFacts.
Import Geo.
Section PointInPolygonFacts.
Context {P : Type} `{Position P}.
Local Open Scope Q_scope.

(** *** The loop as a walk along the ring *)



(** *** Edges *)





(** *** Crossings of the ray *)








Section Point.
Variable point : LatLng.

















(** *** A point strictly outside *)



(** *** At most one rising edge *)


(** *** A point strictly inside *)









End Point.

(** *** The result depends on the numbers only *)




End PointInPolygonFacts.
End PointInPolygonFacts.

(** Concrete rings. *)
Module PointInPolygonExamples.
Import Geo.
Local Open Scope Q_scope.

(** A triangle that turns counter-clockwise, and the same ring turning
    clockwise. *)
Definition triangle : list (Q * Q) := [(0, 0); (4, 0); (0, 4); (0, 0)].
Definition triangle_cw : list (Q * Q) := [(0, 0); (0, 4); (4, 0); (0, 0)].






Definition inner : LatLng := {| latitude := 1; longitude := 1 |}.
Definition outer : LatLng := {| latitude := 3; longitude := 3 |}.






(** On the vertices of the triangle the loop answers true at the lower
    left corner and false at the two others. *)
Example triangle_vertices :
  isPointInPolygon {| latitude := 0; longitude := 0 |} triangle = true
  /\ isPointInPolygon {| latitude := 0; longitude := 4 |} triangle = false
  /\ isPointInPolygon {| latitude := 4; longitude := 0 |} triangle = false.
Proof. vm_compute. auto. Qed.

End PointInPolygonExamples.

(** ** Ward lookup *)

Module LookupFacts.
Import Geo.
Section LookupFacts.
Context {P : Type} `{Position P}.

Lemma any_polygon_contains_ok (point : LatLng) (polygons : list (list (list P))) :
  forallb (fun polygon => match polygon with [] => false | _ :: _ => true end) polygons = true ->
  any_polygon_contains point polygons
  = Ok (existsb (fun polygon =>
                   match polygon with
                   | ring :: _ => isPointInPolygon point ring
                   | [] => false
                   end) polygons).
Proof.
  induction polygons as [|polygon rest IH]; simpl; [reflexivity|].
  destruct polygon as [|ring rings]; simpl; [discriminate|].
  intros Hrest. destruct (isPointInPolygon point ring); simpl; auto.
Qed.

Lemma feature_test_ok (point : LatLng) (feature : Feature P) :
  has_rings feature = true ->
  feature_test point feature = Ok (feature_contains point feature).
Proof.
  unfold has_rings, feature_test, feature_contains.
  destruct (geometry feature) as [[[|ring rings]|polygons]|]; try reflexivity.
  - discriminate.
  - apply any_polygon_contains_ok.
Qed.




End LookupFacts.
End LookupFacts.

(** Two overlapping wards. *)
Module LookupExamples.
Import Geo PointInPolygonExamples.
Local Open Scope Q_scope.

Definition ward_a : Feature (Q * Q) :=
  {| properties := Some (<["id" := JStr "A"]> ∅);
     geometry := Some (Polygon [triangle]) |}.

Definition ward_b : Feature (Q * Q) :=
  {| properties := Some (<["id" := JStr "B"]> ∅);
     geometry := Some (MultiPolygon [[triangle_cw]]) |}.


End LookupExamples.

(** Sixty features around the origin. *)
Module FilterExamples.
Import SpatialFilter BoundaryStore.
Local Open Scope Q_scope.

Definition at_origin : Feature (Q * Q) :=
  {| properties := None; geometry := Some (Polygon [[(0, 0); (1, 0); (0, 1); (0, 0)]]) |}.

Definition sixty : list (Feature (Q * Q)) := repeat at_origin 60.

Definition viewport : Bounds :=
  {| northEast := {| latitude := 2; longitude := 2 |};
     southWest := {| latitude := -2; longitude := -2 |} |}.

Lemma filter_strides_then_tests_witness :
  features (filterGeoJSONByBounds {| features := Some sixty |} (Some viewport))
  = Some (repeat at_origin 30).
Proof.
  destruct (SpatialFilterFacts.filter_strides_then_tests sixty viewport) as (Hkept & _).
  - vm_compute. lia.
  - rewrite Hkept. vm_compute. reflexivity.
Defined.

End FilterExamples.

(** A storage with one entry, written at time 0. *)
Module StoreExamples.
Import SpatialFilter BoundaryStore SimplifierExamples.
Local Open Scope Z_scope.

Definition cached : FeatureCollection (Q * Q) := {| features := Some [polygon102] |}.
Definition fetched : FeatureCollection (Q * Q) := {| features := Some [polygon101] |}.

(** The blob ["entry"] reads as [cached] written at time 0; no other blob
    can be read. *)
Definition parse (blob : string) : option (@CacheData (Q * Q)) :=
  if String.eqb blob "entry" then Some {| data := cached; timestamp := 0 |} else None.

Definition stringify (entry : @CacheData (Q * Q)) : string := "entry".

Definition with_entry : AsyncStorage :=
  {| store := <[GEOJSON_CACHE_KEY := "entry"%string]> ∅; pending := [] |}.

Definition with_garbage : AsyncStorage :=
  {| store := <[GEOJSON_CACHE_KEY := "{"%string]> ∅; pending := [] |}.

Definition empty : AsyncStorage := {| store := ∅; pending := [] |}.

Lemma stale_or_unreadable_entry_is_a_miss_witness :
  getCachedGeoJSON parse 7200001 with_entry = (None, purged with_entry)
  /\ getCachedGeoJSON parse 7200001 with_garbage = (None, settle with_garbage).
Proof.
  split.
  - destruct (BoundaryStoreFacts.stale_or_unreadable_entry_is_a_miss
                keep_all parse stringify 7200001 with_entry "entry" eq_refl) as [Hstale _].
    destruct (Hstale {| data := cached; timestamp := 0 |}) as [Hget _];
      [discriminate | reflexivity | simpl; lia | exact Hget].
  - destruct (BoundaryStoreFacts.stale_or_unreadable_entry_is_a_miss
                keep_all parse stringify 7200001 with_garbage "{" eq_refl) as [_ Hbad].
    destruct (Hbad (or_intror eq_refl)) as [Hget _]. exact Hget.
Defined.

Lemma refresh_bypasses_valid_entry_witness :
  loadGeoJSON keep_all parse stringify 0.005 1000 1001
    (Response true 200 (Some fetched)) (FetchRejected "offline") with_entry initial_state
  = (with_entry, {| geoJsonData := Some cached; loading := false; error := None;
                    dataSource := cache |})
  /\ dataSource
       (snd (refreshGeoJSON keep_all parse stringify 0.005 1000 1001
               (Response true 200 (Some fetched)) (FetchRejected "offline")
               with_entry initial_state))
     <> cache.
Proof.
  destruct (BoundaryStoreFacts.refresh_bypasses_valid_entry
              keep_all parse stringify 0.005 1000 1001
              (Response true 200 (Some fetched)) (FetchRejected "offline")
              with_entry initial_state "entry" {| data := cached; timestamp := 0 |}
              eq_refl) as (Hload & _ & _ & Hsource).
  - discriminate.
  - reflexivity.
  - simpl. lia.
  - split; [exact Hload | apply Hsource; reflexivity].
Defined.


End StoreExamples.

(** * Further properties *)

(** ** Strides *)

Module StrideFacts.
Import Simplifier Ingestion.
Section StrideFacts.
Context {P : Type} `{Position P}.

(** What [reduce_ring] and [simplify_ring] do with their step. *)
Definition keep_every (step : nat) (coords : list P) : list P :=
  let kept := js_filter (fun _ index => multiple_of step index) 0 coords in
  if strict_neq (last_item kept) (last_item coords)
  then match last_item coords with
       | Some q => kept ++ [q]
       | None => kept
       end
  else kept.

Lemma js_filter_app {A : Type} (keep : A -> nat -> bool) (l : list A) (x : A) :
  forall index,
    js_filter keep index (l ++ [x])
    = js_filter keep index l ++ (if keep x (index + length l)%nat then [x] else []).
Proof.
  induction l as [|y l IH]; intros index; simpl.
  - rewrite Nat.add_0_r. destruct (keep x index); reflexivity.
  - rewrite IH, <- Nat.add_succ_comm. destruct (keep y index); reflexivity.
Qed.

Lemma keep_every_sublist (step : nat) (coords : list P) :
  sublist (keep_every step coords) coords.
Proof.
  unfold keep_every.
  destruct coords as [|q init _] using rev_ind; [constructor|].
  rewrite js_filter_app, last_item_app. simpl.
  pose proof (js_filter_sublist (fun (_ : P) i => multiple_of step i) init 0) as Hsub.
  destruct (multiple_of step (length init)).
  - rewrite last_item_app. simpl. rewrite same_object_refl. simpl.
    apply sublist_app; [exact Hsub | reflexivity].
  - rewrite app_nil_r.
    destruct (strict_neq _ _).
    + apply sublist_app; [exact Hsub | reflexivity].
    + etransitivity; [exact Hsub|]. apply sublist_inserts_r. reflexivity.
Qed.

Lemma keep_every_ends (step : nat) (first : P) (rest : list P) :
  (0 < step)%nat ->
  exists kept final final',
    keep_every step (first :: rest) = first :: kept
    /\ last_item (keep_every step (first :: rest)) = Some final'
    /\ last_item (first :: rest) = Some final
    /\ coord0 final' = coord0 final /\ coord1 final' = coord1 final.
Proof.
  intros Hstep.
  assert (Hk : exists kept,
             js_filter (fun (_ : P) i => multiple_of step i) 0 (first :: rest)
             = first :: kept).
  { eexists. apply js_filter_head. unfold multiple_of.
    destruct (Nat.eqb_spec step 0); [lia|]. rewrite Nat.Div0.mod_0_l. reflexivity. }
  destruct Hk as [kept Hk].
  destruct (last_item_some first rest) as [final Hf].
  unfold keep_every. rewrite Hk, Hf.
  destruct (last_item_some first kept) as [final' Hf'].
  rewrite Hf'. simpl strict_neq.
  destruct (same_object final' final) eqn:Hsame; simpl.
  - exists kept, final, final'. rewrite Hf'.
    destruct (same_object_coords _ _ Hsame). auto.
  - exists (kept ++ [final]), final, final.
    change (first :: kept ++ [final]) with ((first :: kept) ++ [final]).
    rewrite last_item_app. auto.
Qed.

Lemma keep_every_closed (step : nat) (coords : list P) :
  (0 < step)%nat -> ring_closed coords -> ring_closed (keep_every step coords).
Proof.
  intros Hstep. destruct coords as [|first rest]; [intros []|].
  destruct (keep_every_ends step first rest Hstep)
    as (kept & final & final' & Hr & Hl' & Hl & H0 & H1).
  unfold ring_closed. rewrite Hr in Hl' |- *. rewrite Hl', Hl.
  intros [E0 E1]. split; congruence.
Qed.


(** At least one position in [step] is kept. *)
Lemma stride_length_lower {A : Type} (step : nat) (l : list A) :
  (0 < step)%nat ->
  forall index,
    (length l <= step * length (js_filter (fun _ i => multiple_of step i) index l)
                 + (step - index mod step) mod step)%nat.
Proof.
  intros Hstep. unfold multiple_of.
  destruct (Nat.eqb_spec step 0) as [->|_]; [lia|].
  induction l as [|x l IH]; intros index; simpl.
  - lia.
  - specialize (IH (S index)).
    pose proof (Nat.mod_upper_bound index step).
    pose proof (Nat.mod_upper_bound (S index) step).
    pose proof (Nat.div_mod_eq index step).
    pose proof (Nat.div_mod_eq (S index) step).
    destruct (Nat.eqb_spec (index mod step) 0) as [E|E]; simpl.
    + rewrite E, Nat.sub_0_r, Nat.Div0.mod_same.
      destruct (Nat.eq_dec step 1) as [->|Hne].
      * rewrite !Nat.mod_1_r in *. simpl in *. lia.
      * assert (Hs : (S index mod step = 1)%nat).
        { symmetry. apply (Nat.mod_unique _ _ (index / step)); lia. }
        rewrite Hs in IH. rewrite (Nat.mod_small (step - 1)) in IH by lia. lia.
    + rewrite (Nat.mod_small (step - index mod step)) by lia.
      destruct (Nat.eq_dec (S (index mod step)) step) as [Hw|Hw].
      * assert (Hs : (S index mod step = 0)%nat).
        { symmetry. apply (Nat.mod_unique _ _ (S (index / step))); lia. }
        rewrite Hs, Nat.sub_0_r, Nat.Div0.mod_same in IH. lia.
      * assert (Hs : (S index mod step = S (index mod step))%nat).
        { symmetry. apply (Nat.mod_unique _ _ (index / step)); lia. }
        rewrite Hs in IH. rewrite (Nat.mod_small (step - S (index mod step))) in IH by lia.
        lia.
Qed.

Lemma ceil_div50_lt (n : nat) : (50 * ceil_div50 n < n + 50)%nat.
Proof.
  unfold ceil_div50.
  set (x := (inject_Z (Z.of_nat n) / 50)%Q).
  pose proof (Qceiling_lt x) as Hc.
  assert (Hx : (inject_Z (Z.of_nat n) == 50 * x)%Q) by (unfold x; field).
  assert (Hz : (inject_Z (50 * (Qceiling x - 1)) < inject_Z (Z.of_nat n))%Q).
  { rewrite inject_Z_mult, Hx. change (inject_Z 50) with 50%Q. lra. }
  rewrite <- Zlt_Qlt in Hz.
  assert (0 <= x)%Q.
  { unfold x. apply Qle_shift_div_l; [reflexivity|].
    rewrite Qmult_0_l. change 0%Q with (inject_Z 0). rewrite <- Zle_Qle. lia. }
  assert (0 <= Qceiling x)%Z.
  { change 0%Z with (Qceiling 0). apply Qceiling_resp_le. assumption. }
  lia.
Qed.

Lemma stride_positive (n : nat) (tolerance : Q) : (0 < stride n tolerance)%nat.
Proof. unfold stride. lia. Qed.


(** X1.  The hard cap only drops positions: the ring it writes is a
    subsequence of the ring it read. *)
Theorem reduce_ring_is_subsequence (coords : list P) :
  sublist (reduce_ring coords) coords.
Proof. apply (keep_every_sublist (ceil_div50 (length coords)) coords). Qed.

(** X2.  On a ring of more than 100 positions the hard cap keeps at least
    34 positions. *)
Theorem reduce_ring_keeps_a_third (coords : list P) :
  (100 < length coords)%nat -> (34 <= length (reduce_ring coords))%nat.
Proof.
  intros Hlen.
  pose proof (ceil_div50_lt (length coords)) as Hlt.
  assert (Hpos : (0 < ceil_div50 (length coords))%nat).
  { pose proof (SimplifierFacts.ceil_div50_ge (length coords)). lia. }
  pose proof (stride_length_lower (ceil_div50 (length coords)) coords Hpos 0%nat) as Hs.
  rewrite Nat.Div0.mod_0_l, Nat.sub_0_r, Nat.Div0.mod_same in Hs.
  assert (Hkept : (34 <= length (js_filter
                     (fun (_ : P) index => multiple_of (ceil_div50 (length coords)) index)
                     0 coords))%nat) by nia.
  unfold reduce_ring.
  destruct (strict_neq _ _); [|exact Hkept].
  destruct (last_item coords); [|exact Hkept].
  rewrite length_app. lia.
Qed.

(** X3.  The hard cap is idempotent: a feature it has capped is left as it
    is by a second pass. *)
Theorem cap_feature_idempotent (f : Feature P) :
  cap_feature (cap_feature f) = cap_feature f.
Proof.
  destruct (geometry f) as [[[|coords others]|polygons]|] eqn:Eg.
  - assert (E : cap_feature f = f) by (unfold cap_feature; rewrite Eg; reflexivity).
    rewrite !E. reflexivity.
  - destruct (Nat.ltb (length coords) 101) eqn:Hlen.
    + assert (E : cap_feature f = f).
      { unfold cap_feature. rewrite Eg.
        destruct (Nat.ltb_spec 100 (length coords)); [|reflexivity].
        apply Nat.ltb_lt in Hlen. lia. }
      rewrite !E. reflexivity.
    + apply Nat.ltb_ge in Hlen.
      assert (E : cap_feature f
                  = {| properties := properties f;
                       geometry := Some (Polygon (reduce_ring coords :: others)) |}).
      { unfold cap_feature. rewrite Eg.
        destruct (Nat.ltb_spec 100 (length coords)); [reflexivity|lia]. }
      rewrite E. unfold cap_feature. simpl.
      pose proof (SimplifierFacts.reduce_ring_length coords) as Hred.
      destruct (Nat.ltb_spec 100 (length (reduce_ring coords))); [lia|reflexivity].
  - assert (E : cap_feature f = f) by (unfold cap_feature; rewrite Eg; reflexivity).
    rewrite !E. reflexivity.
  - assert (E : cap_feature f = f) by (unfold cap_feature; rewrite Eg; reflexivity).
    rewrite !E. reflexivity.
Qed.

(** X4.  The simplification of the import only drops positions, and it
    keeps a closed ring closed, whatever the tolerance. *)
Theorem simplify_ring_subsequence_closed (tolerance : Q) (coords : list P) :
  sublist (simplify_ring tolerance coords) coords
  /\ (ring_closed coords -> ring_closed (simplify_ring tolerance coords)).
Proof.
  split.
  - apply (keep_every_sublist (stride (length coords) tolerance) coords).
  - apply (keep_every_closed (stride (length coords) tolerance) coords).
    apply stride_positive.
Qed.


End StrideFacts.
End StrideFacts.

(** ** Point in polygon on any ring *)

Module RingFacts.
Import Geo PointInPolygonFacts.
Section RingFacts.
Context {P : Type} `{Position P}.
Local Open Scope Q_scope.
















End RingFacts.
End RingFacts.

(** ** Ward lookup on any collection *)

Module LookupSoundness.
Import Geo.
Section LookupSoundness.
Context {P : Type} `{Position P}.

Lemma any_polygon_contains_sound (point : LatLng) (polygons : list (list (list P))) (b : bool) :
  any_polygon_contains point polygons = Ok b ->
  existsb (fun polygon =>
             match polygon with
             | ring :: _ => isPointInPolygon point ring
             | [] => false
             end) polygons = b.
Proof.
  induction polygons as [|[|ring rings] rest IH]; simpl.
  - intros [= <-]. reflexivity.
  - discriminate.
  - destruct (isPointInPolygon point ring); simpl; [intros [= <-]; reflexivity | exact IH].
Qed.

Lemma feature_test_sound (point : LatLng) (f : Feature P) (b : bool) :
  feature_test point f = Ok b -> feature_contains point f = b.
Proof.
  unfold feature_test, feature_contains.
  destruct (geometry f) as [[[|ring rings]|polygons]|].
  - discriminate.
  - intros [= <-]. reflexivity.
  - apply any_polygon_contains_sound.
  - intros [= <-]. reflexivity.
Qed.

(** X9.  Whatever the collection, a feature that [findWardForPoint] returns
    is a feature of the collection that contains the point, and no feature
    before it does. *)
Theorem findWardForPoint_sound (point : option LatLng)
  (geoJsonData : option (FeatureCollection P)) (f : Feature P) :
  findWardForPoint point geoJsonData = Ok (Some f) ->
  exists pt g fs before after,
    point = Some pt /\ geoJsonData = Some g /\ features g = Some fs
    /\ fs = before ++ f :: after
    /\ feature_contains pt f = true
    /\ forall earlier, In earlier before -> feature_contains pt earlier = false.
Proof.
  unfold findWardForPoint.
  destruct geoJsonData as [g|]; [|discriminate].
  destruct point as [pt|]; [|discriminate].
  destruct (features g) as [fs|] eqn:Efs; [|discriminate].
  intros Hfind. exists pt, g, fs.
  assert (Hloop : exists before after,
             fs = before ++ f :: after /\ feature_contains pt f = true
             /\ forall earlier, In earlier before -> feature_contains pt earlier = false).
  { clear Efs. induction fs as [|x fs IH]; simpl in Hfind; [discriminate|].
    destruct (feature_test pt x) as [[|]|] eqn:Et; try discriminate.
    - injection Hfind as <-. exists [], fs.
      split; [reflexivity|]. split; [exact (feature_test_sound pt x true Et)|].
      intros earlier [].
    - destruct (IH Hfind) as (before & after & -> & Hc & Hb).
      exists (x :: before), after. split; [reflexivity|]. split; [exact Hc|].
      intros earlier [<-|Hin]; [exact (feature_test_sound pt x false Et) | auto]. }
  destruct Hloop as (before & after & Hfs & Hc & Hb).
  exists before, after. repeat split; auto.
Qed.

(** X10.  A Polygon without any ring makes the lookup throw when no feature
    before it contains the point, whatever comes after it. *)
Theorem findWardForPoint_throws (pt : LatLng) (before after : list (Feature P))
  (props : option (gmap string JSValue)) :
  (forall earlier, In earlier before ->
     has_rings earlier = true /\ feature_contains pt earlier = false) ->
  findWardForPoint (Some pt)
    (Some {| features :=
               Some (before ++ {| properties := props; geometry := Some (Polygon []) |}
                            :: after) |})
  = TypeError.
Proof.
  intros Hbefore. simpl.
  induction before as [|x before IH]; simpl; [reflexivity|].
  destruct (Hbefore x (or_introl eq_refl)) as [Hr Hc].
  rewrite (LookupFacts.feature_test_ok pt x Hr), Hc.
  apply IH. intros earlier Hin. apply Hbefore. right. exact Hin.
Qed.

End LookupSoundness.
End LookupSoundness.

(** ** The viewport filter on any collection *)

Module ViewportFacts.
Import SpatialFilter BoundaryStore.
Section ViewportFacts.
Context {P : Type} `{Position P}.


(** [inner] lies within [outer]. *)
Definition within (inner outer : Bounds) : Prop :=
  (latitude (southWest outer) <= latitude (southWest inner)
   /\ latitude (northEast inner) <= latitude (northEast outer)
   /\ longitude (southWest outer) <= longitude (southWest inner)
   /\ longitude (northEast inner) <= longitude (northEast outer))%Q.




Lemma js_filter_mono {A : Type} (keep keep' : A -> nat -> bool) (l : list A) :
  (forall x i, keep x i = true -> keep' x i = true) ->
  forall index, sublist (js_filter keep index l) (js_filter keep' index l).
Proof.
  intros Hk. induction l as [|x l IH]; intros index; simpl; [constructor|].
  destruct (keep x index) eqn:E.
  - rewrite (Hk _ _ E). apply sublist_skip, IH.
  - destruct (keep' x index); [apply sublist_cons, IH | apply IH].
Qed.

Lemma js_filter_plain {A : Type} (keep : A -> bool) (l : list A) (index : nat) :
  js_filter (fun x _ => keep x) index l = List.filter keep l.
Proof.
  revert index. induction l as [|x l IH]; intros index; simpl; [reflexivity|].
  rewrite IH. reflexivity.
Qed.


Lemma keep_feature_small (bounds : Bounds) (total : nat) (fs : list (Feature P)) :
  (total <= 50)%nat ->
  forall index,
    js_filter (keep_feature (expand bounds) total) index fs
    = List.filter (vertex_in_bounds bounds) fs.
Proof.
  intros Htotal. apply Nat.ltb_ge in Htotal.
  induction fs as [|f fs IH]; intros index; cbn [js_filter List.filter]; [reflexivity|].
  unfold keep_feature at 1. rewrite Htotal, andb_false_r.
  fold (vertex_in_bounds bounds f). rewrite IH. reflexivity.
Qed.

(** X12.  On at most 50 features nothing is skipped: the result is exactly
    the features that pass the bounds test, so every Polygon with a
    position of its first ring inside the bounds is returned. *)
Theorem filter_small_collection (fs : list (Feature P)) (bounds : Bounds) :
  (length fs <= 50)%nat ->
  features (filterGeoJSONByBounds {| features := Some fs |} (Some bounds))
  = Some (List.filter (vertex_in_bounds bounds) fs).
Proof.
  intros Hlen. simpl. f_equal. apply keep_feature_small. exact Hlen.
Qed.

Lemma isPointInBounds_within (inner outer : Bounds) (point : LatLng) :
  within inner outer ->
  isPointInBounds (Some point) (Some (expand inner)) = true ->
  isPointInBounds (Some point) (Some (expand outer)) = true.
Proof.
  intros (H1 & H2 & H3 & H4).
  rewrite !SpatialFilterFacts.isPointInBounds_inclusive. simpl.
  intros (G1 & G2 & G3 & G4). repeat split; lra.
Qed.

Lemma keep_feature_within (inner outer : Bounds) (total : nat) (f : Feature P) (index : nat) :
  within inner outer ->
  keep_feature (expand inner) total f index = true ->
  keep_feature (expand outer) total f index = true.
Proof.
  intros Hw. unfold keep_feature.
  destruct (negb _ && _); [discriminate|].
  destruct (geometry f) as [[[|ring others]|polygons]|]; simpl; try discriminate.
  rewrite !existsb_exists. intros (v & Hin & Hv). exists v. split; [exact Hin|].
  exact (isPointInBounds_within inner outer
           {| latitude := coord1 v; longitude := coord0 v |} Hw Hv).
Qed.

(** X13.  Growing the bounds never loses a feature: what is returned for
    bounds that lie within others is a subsequence of what is returned for
    the others. *)
Theorem filter_monotone_in_bounds (fs : list (Feature P)) (inner outer : Bounds) :
  within inner outer ->
  exists kept kept',
    features (filterGeoJSONByBounds {| features := Some fs |} (Some inner)) = Some kept
    /\ features (filterGeoJSONByBounds {| features := Some fs |} (Some outer)) = Some kept'
    /\ sublist kept kept'.
Proof.
  intros Hw. eexists. eexists. split; [reflexivity|]. split; [reflexivity|].
  apply js_filter_mono. intros f i. apply keep_feature_within. exact Hw.
Qed.

End ViewportFacts.
End ViewportFacts.

(** ** The load cycle of the boundary store *)

Module LoadCycleFacts.
Import SpatialFilter BoundaryStore.
Section LoadCycleFacts.
Context {P : Type} `{Position P}.
Variable simplify : FeatureCollection P -> Q -> bool -> Outcome (FeatureCollection P).
Variable json_parse : string -> option (@CacheData P).
Variable json_stringify : @CacheData P -> string.

Abbreviation getCached := (getCachedGeoJSON json_parse).
Abbreviation load := (loadGeoJSON simplify json_parse json_stringify).
Abbreviation network := (load_from_network simplify json_stringify).

(** The collection [optimizedGeoJSON] made from the simplified features. *)
Definition optimized (fs : list (Feature P)) : FeatureCollection P :=
  {| features := Some (map prune_feature fs) |}.

(** What the fallback fetch, or reading its body, throws. *)
Definition failure_of (fallback : FetchOutcome (FeatureCollection P))
  : option ErrorMessage :=
  match fallback with
  | FetchRejected message => Some (Rejected message)
  | Response false status _ => Some (FailedToFetch status)
  | Response true _ None => Some Thrown
  | Response true _ (Some _) => None
  end.

(** A cached entry that [getCachedGeoJSON] serves at [now]. *)
Definition served (now : Z) (s : AsyncStorage) (entry : CacheData) : Prop :=
  exists blob,
    store (settle s) !! GEOJSON_CACHE_KEY = Some blob /\ blob <> ""
    /\ json_parse blob = Some entry /\ (now - timestamp entry <= 7200000)%Z.

Lemma getCached_hit (now : Z) (s : AsyncStorage) (entry : CacheData) :
  served now s entry -> getCached now s = (Some (data entry), settle s).
Proof.
  intros (blob & Hblob & Hne & Hparse & Hfresh).
  unfold getCachedGeoJSON, getItem. rewrite Hblob.
  apply String.eqb_neq in Hne. rewrite Hne, Hparse.
  destruct (num_gt _ CACHE_EXPIRY_HOURS) eqn:Hage; [|reflexivity].
  apply BoundaryStoreFacts.cache_age_expired in Hage. lia.
Qed.

Lemma getCached_inv (now : Z) (s : AsyncStorage) :
  (exists entry, served now s entry /\ getCached now s = (Some (data entry), settle s))
  \/ (exists s1, getCached now s = (None, s1) /\ pending s1 = []).
Proof.
  unfold getCachedGeoJSON, getItem.
  destruct (store (settle s) !! GEOJSON_CACHE_KEY) as [blob|] eqn:Hblob;
    [|right; eexists; split; reflexivity].
  destruct (String.eqb_spec blob "") as [Hempty|Hne];
    [right; eexists; split; reflexivity|].
  destruct (json_parse blob) as [entry|] eqn:Hparse;
    [|right; eexists; split; reflexivity].
  destruct (num_gt _ CACHE_EXPIRY_HOURS) eqn:Hage.
  - right. eexists. split; reflexivity.
  - left. exists entry. split; [|reflexivity].
    exists blob. repeat split; auto.
    destruct (Z_le_gt_dec (now - timestamp entry) 7200000) as [Hle|Hgt]; [exact Hle|].
    assert (Hold : (7200000 < now - timestamp entry)%Z) by lia.
    apply BoundaryStoreFacts.cache_age_expired in Hold. congruence.
Qed.

Lemma cacheGeoJSON_store (now : Z) (d : FeatureCollection P) (s : AsyncStorage) :
  store (settle (cacheGeoJSON json_stringify now d s)) !! GEOJSON_CACHE_KEY
  = Some (json_stringify {| data := d; timestamp := now |})
  /\ pending (cacheGeoJSON json_stringify now d s) = [].
Proof.
  unfold cacheGeoJSON, await_op. rewrite BoundaryStoreFacts.settle_issue.
  split; [|reflexivity]. unfold settle. simpl. apply lookup_insert_eq.
Qed.

Lemma fetch_raw_inv (primary fallback : FetchOutcome (FeatureCollection P))
  (raw : FeatureCollection P) (source : DataSource) :
  fetch_raw primary fallback = inr (raw, source) ->
  (source = api /\ exists status, primary = Response true status (Some raw))
  \/ (source = github /\ primary_failed primary
      /\ exists status, fallback = Response true status (Some raw)).
Proof.
  unfold fetch_raw.
  destruct primary as [m|[] status [g|]];
    try (intros [= <- <-]; left; split; [reflexivity|]; exists status; reflexivity);
    destruct fallback as [m'|[] status' [g'|]]; try discriminate;
    intros [= <- <-]; right; (split; [reflexivity|]); (split; [exact I|]);
    exists status'; reflexivity.
Qed.

(** X14.  What a successful load from the network writes is what the next
    load serves: while the entry is at most two hours old, and provided the
    JSON round trip gives the entry back, a later load returns the same
    collection with the data source [cache], leaves the storage alone and
    does not depend on the network. *)
Theorem cache_round_trip
  (tolerance tolerance' : Q) (now_read now_write now_read' now_write' : Z)
  (primary fallback primary' fallback' : FetchOutcome (FeatureCollection P))
  (s s1 : AsyncStorage) (st st' : HookState)
  (raw : FeatureCollection P) (source : DataSource) (fs : list (Feature P)) :
  getCached now_read s = (None, s1) ->
  fetch_raw primary fallback = inr (raw, source) ->
  features (Simplifier.simplifyGeoJSON simplify raw tolerance) = Some fs ->
  json_stringify {| data := optimized fs; timestamp := now_write |} <> "" ->
  json_parse (json_stringify {| data := optimized fs; timestamp := now_write |})
  = Some {| data := optimized fs; timestamp := now_write |} ->
  (now_read' - now_write <= 7200000)%Z ->
  geoJsonData (snd (load tolerance now_read now_write primary fallback s st))
  = Some (optimized fs)
  /\ load tolerance' now_read' now_write' primary' fallback'
       (fst (load tolerance now_read now_write primary fallback s st)) st'
     = (fst (load tolerance now_read now_write primary fallback s st),
        {| geoJsonData := Some (optimized fs); loading := false; error := None;
           dataSource := cache |}).
Proof.
  intros Hmiss Hraw Hfs Hne Hparse Hfresh.
  rewrite (BoundaryStoreFacts.load_miss simplify json_parse json_stringify
             tolerance now_read now_write primary fallback s s1 st Hmiss).
  unfold load_from_network. rewrite Hraw. cbv zeta. rewrite Hfs. cbn [fst snd geoJsonData].
  split; [reflexivity|].
  fold (optimized fs).
  destruct (cacheGeoJSON_store now_write (optimized fs) s1) as [Hstore Hpending].
  set (s2 := cacheGeoJSON json_stringify now_write (optimized fs) s1) in *.
  assert (Hsettled : settle s2 = s2).
  { unfold settle. rewrite Hpending. destruct s2 as [m p]. simpl in *. subst p. reflexivity. }
  unfold loadGeoJSON.
  rewrite (getCached_hit now_read' s2 {| data := optimized fs; timestamp := now_write |}).
  - rewrite Hsettled. reflexivity.
  - eexists. split; [exact Hstore|]. split; [exact Hne|]. split; [exact Hparse|]. exact Hfresh.
Qed.

(** X15.  When the cache misses, the primary fetch fails and the fallback
    fails too (it is rejected, its status is not ok or its body cannot be
    read), the load keeps the data and the data source it had, writes
    nothing to the storage and reports the failure of the fallback. *)
Theorem failed_load_keeps_data
  (tolerance : Q) (now_read now_write : Z)
  (primary fallback : FetchOutcome (FeatureCollection P))
  (s s1 : AsyncStorage) (st : HookState) (message : ErrorMessage) :
  getCached now_read s = (None, s1) ->
  primary_failed primary ->
  failure_of fallback = Some message ->
  load tolerance now_read now_write primary fallback s st
  = (s1, {| geoJsonData := geoJsonData st; loading := false;
            error := Some message; dataSource := dataSource st |}).
Proof.
  intros Hmiss Hprimary Hfallback.
  rewrite (BoundaryStoreFacts.load_miss simplify json_parse json_stringify
             tolerance now_read now_write primary fallback s s1 st Hmiss).
  unfold load_from_network.
  destruct fallback as [m|[] status [body|]]; simpl in Hfallback;
    try discriminate; injection Hfallback as <-;
    destruct primary as [m'|[] status' [g|]]; simpl in Hprimary |- *;
    try contradiction; reflexivity.
Qed.

(** X16.  Every load ends with [loading] false and no storage request
    pending, and with an error reported or a collection in the state. *)
Theorem load_settles
  (tolerance : Q) (now_read now_write : Z)
  (primary fallback : FetchOutcome (FeatureCollection P))
  (s : AsyncStorage) (st : HookState) :
  loading (snd (load tolerance now_read now_write primary fallback s st)) = false
  /\ pending (fst (load tolerance now_read now_write primary fallback s st)) = []
  /\ ((exists message,
         error (snd (load tolerance now_read now_write primary fallback s st))
         = Some message)
      \/ (exists g,
            geoJsonData (snd (load tolerance now_read now_write primary fallback s st))
            = Some g)).
Proof.
  destruct (getCached_inv now_read s) as [(entry & _ & Hhit)|(s1 & Hmiss & Hpending)].
  - unfold loadGeoJSON. rewrite Hhit. simpl. eauto.
  - rewrite (BoundaryStoreFacts.load_miss simplify json_parse json_stringify
               tolerance now_read now_write primary fallback s s1 st Hmiss).
    unfold load_from_network.
    destruct (fetch_raw primary fallback) as [message|[raw source]]; simpl; [eauto|].
    destruct (features _) as [fs|]; simpl; eauto.
Qed.

(** X17.  After a load that reports no error the data source tells where
    the collection came from: [cache] goes with a stored entry at most two
    hours old, [api] with a primary response that was ok, [github] with a
    failed primary fetch and a fallback response that was ok; in the last
    two cases the collection is the simplified and pruned body. *)
Theorem data_source_is_truthful
  (tolerance : Q) (now_read now_write : Z)
  (primary fallback : FetchOutcome (FeatureCollection P))
  (s : AsyncStorage) (st : HookState) :
  error (snd (load tolerance now_read now_write primary fallback s st)) = None ->
  match dataSource (snd (load tolerance now_read now_write primary fallback s st)) with
  | cache =>
      exists entry,
        served now_read s entry
        /\ geoJsonData (snd (load tolerance now_read now_write primary fallback s st))
           = Some (data entry)
  | api =>
      exists status raw fs,
        primary = Response true status (Some raw)
        /\ features (Simplifier.simplifyGeoJSON simplify raw tolerance) = Some fs
        /\ geoJsonData (snd (load tolerance now_read now_write primary fallback s st))
           = Some (optimized fs)
  | github =>
      primary_failed primary
      /\ exists status raw fs,
           fallback = Response true status (Some raw)
           /\ features (Simplifier.simplifyGeoJSON simplify raw tolerance) = Some fs
           /\ geoJsonData (snd (load tolerance now_read now_write primary fallback s st))
              = Some (optimized fs)
  end.
Proof.
  destruct (getCached_inv now_read s) as [(entry & Hserved & Hhit)|(s1 & Hmiss & _)].
  - unfold loadGeoJSON. rewrite Hhit. simpl. intros _. exists entry. auto.
  - rewrite (BoundaryStoreFacts.load_miss simplify json_parse json_stringify
               tolerance now_read now_write primary fallback s s1 st Hmiss).
    unfold load_from_network.
    destruct (fetch_raw primary fallback) as [message|[raw source]] eqn:Hraw;
      [discriminate|].
    cbv zeta.
    destruct (features (Simplifier.simplifyGeoJSON simplify raw tolerance)) as [fs|] eqn:Hfs;
      [|discriminate].
    simpl. intros _.
    destruct (fetch_raw_inv primary fallback raw source Hraw)
      as [(-> & status & ->)|(-> & Hfailed & status & ->)].
    + exists status, raw, fs. auto.
    + split; [exact Hfailed|]. exists status, raw, fs. auto.
Qed.

End LoadCycleFacts.
End LoadCycleFacts.

(** ** The import on any input *)

Module ImportFacts.
Import Ingestion.
Section ImportFacts.
Context {P : Type} `{Position P}.
Variable js_to_string : JSValue -> string.
Variable upsert : list (@WardRecord P) -> option string.

(** The identifier and the properties the import reads from a feature. *)
Definition identifier (f : Feature P) : string :=
  js_to_string (ward_id_of (default ∅ (properties f))).

Definition bag (f : Feature P) : gmap string JSValue := default ∅ (properties f).

Lemma ward_of_feature_inv (municipality : JSValue) (tolerance : Q) (f : Feature P)
  (ward : option WardRecord) :
  ward_of_feature js_to_string municipality tolerance f = Ok ward ->
  if has_ward_id f
  then exists w, ward = Some w /\ ward_id w = identifier f /\ ward_properties w = bag f
                 /\ municipality_id w = js_or municipality JNull
  else ward = None.
Proof.
  unfold ward_of_feature. fold (has_ward_id f).
  destruct (has_ward_id f); simpl; [|intros [= <-]; reflexivity].
  destruct (simplify_geometry tolerance (geometry f)) as [g|]; [|discriminate].
  intros [= <-]. eexists. split; [reflexivity|]. simpl. auto.
Qed.

Lemma collect_wards_inv (municipality : JSValue) (tolerance : Q) (fs : list (Feature P)) :
  forall wards,
    collect_wards js_to_string municipality tolerance fs = Ok wards ->
    map ward_id wards = map identifier (List.filter has_ward_id fs)
    /\ map ward_properties wards = map bag (List.filter has_ward_id fs)
    /\ Forall (fun w => municipality_id w = js_or municipality JNull) wards.
Proof.
  induction fs as [|f fs IH]; simpl; intros wards.
  - intros [= <-]. repeat split. constructor.
  - destruct (ward_of_feature js_to_string municipality tolerance f) as [ward|] eqn:Hward;
      [|discriminate].
    destruct (collect_wards js_to_string municipality tolerance fs) as [more|];
      [|discriminate].
    intros [= <-]. destruct (IH more eq_refl) as (Hid & Hprops & Hm).
    apply ward_of_feature_inv in Hward.
    destruct (has_ward_id f).
    + destruct Hward as (w & -> & Hw1 & Hw2 & Hw3). simpl.
      rewrite Hid, Hprops, Hw1, Hw2. repeat split. constructor; assumption.
    + subst ward. auto.
Qed.

Lemma collect_wards_count (municipality : JSValue) (tolerance : Q) (fs : list (Feature P))
  (wards : list WardRecord) :
  collect_wards js_to_string municipality tolerance fs = Ok wards ->
  length wards = length (List.filter has_ward_id fs).
Proof.
  intros Hw. destruct (collect_wards_inv municipality tolerance fs wards Hw) as (Hid & _).
  rewrite <- (length_map ward_id wards), Hid, length_map. reflexivity.
Qed.

Lemma collect_wards_throws (municipality : JSValue) (tolerance : Q) (fs : list (Feature P))
  (f : Feature P) :
  In f fs ->
  ward_of_feature js_to_string municipality tolerance f = TypeError ->
  collect_wards js_to_string municipality tolerance fs = TypeError.
Proof.
  intros Hin Hf. induction fs as [|g fs IH]; [destruct Hin|]. simpl.
  destruct Hin as [->|Hin].
  - rewrite Hf. reflexivity.
  - rewrite (IH Hin). destruct (ward_of_feature _ _ _ g); reflexivity.
Qed.

Lemma insert_batches_answers (wards : list WardRecord) :
  forall fuel i insertedCount,
    (length wards <= i + fuel)%nat ->
    insert_batches upsert fuel i insertedCount wards <> None.
Proof.
  induction fuel as [|fuel IH]; intros i c Hfuel; simpl.
  - destruct (Nat.ltb_spec i (length wards)); [lia | discriminate].
  - destruct (Nat.ltb_spec i (length wards)); [|discriminate].
    destruct (upsert _); [discriminate|].
    apply IH. unfold batchSize. lia.
Qed.

Lemma insert_batches_count (wards : list WardRecord) :
  forall fuel i insertedCount total,
    insert_batches upsert fuel i insertedCount wards = Some (inr total) ->
    total = (insertedCount + (length wards - i))%nat.
Proof.
  induction fuel as [|fuel IH]; intros i c total; simpl.
  - destruct (Nat.ltb_spec i (length wards)); [discriminate|]. intros [= <-]. lia.
  - destruct (Nat.ltb_spec i (length wards)) as [Hi|Hi]; [|intros [= <-]; lia].
    destruct (upsert _); [discriminate|].
    intros Hrest. apply IH in Hrest. rewrite Hrest.
    rewrite IngestionFacts.slice_length. unfold batchSize. lia.
Qed.

Lemma insert_batches_refused (wards : list WardRecord) (k : nat) (message : string) :
  (batchSize * k < length wards)%nat ->
  (forall j, (j < k)%nat ->
     upsert (slice (batchSize * j) (batchSize * j + batchSize) wards) = None) ->
  upsert (slice (batchSize * k) (batchSize * k + batchSize) wards) = Some message ->
  forall d j fuel insertedCount,
    (j + d = k)%nat -> (d < fuel)%nat ->
    insert_batches upsert fuel (batchSize * j) insertedCount wards = Some (inl message).
Proof.
  intros Hk Hbefore Hat.
  induction d as [|d IH]; intros j fuel c Hj Hfuel;
    (destruct fuel as [|fuel]; [lia|]); cbn [insert_batches].
  - assert (j = k) by lia. subst j.
    destruct (Nat.ltb_spec (batchSize * k) (length wards)); [|lia].
    rewrite Hat. reflexivity.
  - assert (Hlt : (batchSize * j < length wards)%nat) by (unfold batchSize in *; lia).
    destruct (Nat.ltb_spec (batchSize * j) (length wards)); [|lia].
    rewrite Hbefore by lia.
    replace (batchSize * j + batchSize)%nat with (batchSize * S j)%nat by lia.
    apply IH; lia.
Qed.

(** X18.  The handler answers every request: the batch loop ends within the
    number of iterations the records allow, whatever the store answers. *)
Theorem import_always_answers (geojson_url municipality : JSValue)
  (simplify_tolerance : option Q) (fetched : FetchOutcome (FeatureCollection P)) :
  exists response,
    import_wards js_to_string upsert geojson_url municipality simplify_tolerance fetched
    = Some response.
Proof.
  unfold import_wards.
  destruct (negb (truthy geojson_url)); [eauto|].
  destruct fetched as [m|[] status [g|]]; eauto.
  destruct (features g) as [fs|]; [|eauto].
  destruct (collect_wards _ _ _ fs) as [wards|]; [|eauto].
  destruct (length wards =? 0)%nat; [eauto|].
  pose proof (insert_batches_answers wards (length wards) 0 0 ltac:(lia)) as Hans.
  destruct (insert_batches upsert (length wards) 0 0 wards) as [[message|n]|];
    [eauto | eauto | contradiction].
Qed.

(** X19.  A success answer always carries the number of features that have
    a ward id and the number of all features of the fetched collection, and
    the first is at least 1 and at most the second. *)
Theorem import_success_counts (geojson_url municipality : JSValue)
  (simplify_tolerance : option Q) (fetched : FetchOutcome (FeatureCollection P))
  (imported_count total_features : nat) :
  import_wards js_to_string upsert geojson_url municipality simplify_tolerance fetched
  = Some (Success imported_count total_features) ->
  truthy geojson_url = true
  /\ exists status fs,
       fetched = Response true status (Some {| features := Some fs |})
       /\ total_features = length fs
       /\ imported_count = length (List.filter has_ward_id fs)
       /\ (1 <= imported_count <= total_features)%nat.
Proof.
  unfold import_wards.
  destruct (truthy geojson_url); simpl; [|discriminate].
  destruct fetched as [m|[] status [[[fs|]]|]]; simpl; try discriminate.
  destruct (collect_wards _ _ _ fs) as [wards|] eqn:Hwards; [|discriminate].
  destruct (Nat.eqb_spec (length wards) 0) as [|Hpos]; [discriminate|].
  destruct (insert_batches upsert (length wards) 0 0 wards) as [[message|n]|] eqn:Hloop;
    try discriminate.
  intros [= <- <-]. split; [reflexivity|]. exists status, fs.
  apply insert_batches_count in Hloop.
  pose proof (collect_wards_count _ _ _ _ Hwards) as Hcount.
  pose proof (SpatialFilterFacts.filter_length_le has_ward_id fs).
  repeat split; lia.
Qed.

(** X20.  The records are made in the order of the features that have a
    ward id: each carries the identifier as a string, the properties of its
    feature untouched, and the municipality of the request or null. *)
Theorem collect_wards_in_order (municipality : JSValue) (tolerance : Q)
  (fs : list (Feature P)) (wards : list WardRecord) :
  collect_wards js_to_string municipality tolerance fs = Ok wards ->
  map ward_id wards = map identifier (List.filter has_ward_id fs)
  /\ map ward_properties wards = map bag (List.filter has_ward_id fs)
  /\ Forall (fun w => municipality_id w = js_or municipality JNull) wards.
Proof. apply collect_wards_inv. Qed.

(** X21.  When the store refuses a batch after accepting the ones before
    it, the import stops there and answers 400 with the message of that
    batch. *)
Theorem import_stops_at_refused_batch (geojson_url municipality : JSValue)
  (simplify_tolerance : option Q) (status : Z) (fs : list (Feature P))
  (wards : list WardRecord) (k : nat) (message : string) :
  truthy geojson_url = true ->
  collect_wards js_to_string municipality (default 0.001%Q simplify_tolerance) fs = Ok wards ->
  (batchSize * k < length wards)%nat ->
  (forall j, (j < k)%nat ->
     upsert (slice (batchSize * j) (batchSize * j + batchSize) wards) = None) ->
  upsert (slice (batchSize * k) (batchSize * k + batchSize) wards) = Some message ->
  import_wards js_to_string upsert geojson_url municipality simplify_tolerance
    (Response true status (Some {| features := Some fs |}))
  = Some (Status400 ("Failed to insert ward batch: " ++ message)).
Proof.
  intros Hurl Hwards Hk Hbefore Hat.
  unfold import_wards. rewrite Hurl. simpl. rewrite Hwards.
  destruct (Nat.eqb_spec (length wards) 0) as [E|_]; [lia|].
  pose proof (insert_batches_refused wards k message Hk Hbefore Hat k 0 (length wards) 0)
    as Hloop.
  replace (batchSize * 0)%nat with 0%nat in Hloop by lia.
  rewrite Hloop; [reflexivity | lia | unfold batchSize in *; lia].
Qed.

(** X22.  One identified Polygon without any ring makes the whole import
    fail with status 500 when the tolerance is positive, whatever the other
    features and the store. *)
Theorem import_fails_on_ringless_polygon (geojson_url municipality : JSValue)
  (tolerance : Q) (status : Z) (fs : list (Feature P)) (f : Feature P) :
  truthy geojson_url = true ->
  (0 < tolerance)%Q ->
  In f fs -> has_ward_id f = true -> geometry f = Some (Polygon []) ->
  import_wards js_to_string upsert geojson_url municipality (Some tolerance)
    (Response true status (Some {| features := Some fs |}))
  = Some Status500.
Proof.
  intros Hurl Htol Hin Hid Hgeo.
  unfold import_wards. rewrite Hurl. simpl.
  rewrite (collect_wards_throws municipality tolerance fs f Hin); [reflexivity|].
  unfold ward_of_feature. fold (has_ward_id f). rewrite Hid, Hgeo. simpl.
  apply num_gt_spec in Htol. rewrite Htol. reflexivity.
Qed.

End ImportFacts.
End ImportFacts.

(** ** Rendering *)

Module RenderingFacts.
Import Geo Rendering.
Section RenderingFacts.
Context {P : Type} `{Position P}.
Variable index_to_string : nat -> string.

Abbreviation render := (renderGeoJSONPolygons index_to_string).

Lemma render_polygons_ok (options : RenderOptions) (f : Feature P) (index : nat)
  (polygons : list (list (list P))) :
  forallb (fun polygon => match polygon with [] => false | _ :: _ => true end) polygons = true ->
  forall polyIndex,
  exists items,
    render_polygons index_to_string options f index polyIndex polygons = Ok items
    /\ map feature items = repeat f (length polygons)
    /\ Forall (fun item => style item = options) items.
Proof.
  induction polygons as [|[|ring rings] rest IH]; simpl; intros Hall polyIndex.
  - exists []. repeat split. constructor.
  - discriminate.
  - destruct (IH Hall (S polyIndex)) as (items & -> & Hf & Hs).
    eexists. split; [reflexivity|]. simpl. rewrite Hf. split; [reflexivity|].
    constructor; [reflexivity | exact Hs].
Qed.

Lemma render_feature_ok (options : RenderOptions) (f : Feature P) (index : nat) :
  has_rings f = true ->
  exists items,
    render_feature index_to_string options f index = Ok items
    /\ map feature items = repeat f (polygon_count f)
    /\ Forall (fun item => style item = options) items.
Proof.
  unfold has_rings, render_feature, polygon_count.
  destruct (geometry f) as [[[|ring rings]|polygons]|]; intros Hr.
  - discriminate.
  - eexists. split; [reflexivity|]. split; [reflexivity|]. repeat constructor.
  - apply render_polygons_ok. exact Hr.
  - exists []. repeat split. constructor.
Qed.

Lemma render_polygons_throws (options : RenderOptions) (f : Feature P) (index : nat)
  (polygons : list (list (list P))) :
  forallb (fun polygon => match polygon with [] => false | _ :: _ => true end) polygons = false ->
  forall polyIndex,
    render_polygons index_to_string options f index polyIndex polygons = TypeError.
Proof.
  induction polygons as [|[|ring rings] rest IH]; simpl; intros Hall polyIndex.
  - discriminate.
  - reflexivity.
  - rewrite (IH Hall). reflexivity.
Qed.

Lemma render_feature_throws (options : RenderOptions) (f : Feature P) (index : nat) :
  has_rings f = false -> render_feature index_to_string options f index = TypeError.
Proof.
  unfold has_rings, render_feature.
  destruct (geometry f) as [[[|ring rings]|polygons]|]; intros Hr; try discriminate.
  - reflexivity.
  - apply render_polygons_throws. exact Hr.
Qed.

(** X23.  When every polygon of every feature has a ring,
    [renderGeoJSONPolygons] gives one item for each Polygon and one for each
    polygon of a MultiPolygon, in the order of the features, each with its
    feature and the options of the call; a feature without geometry gives
    none. *)
Theorem render_one_item_per_polygon (options : RenderOptions) (fs : list (Feature P)) :
  (forall f, In f fs -> has_rings f = true) ->
  exists items,
    render (Some {| features := Some fs |}) options = Ok items
    /\ map feature items = flat_map (fun f => repeat f (polygon_count f)) fs
    /\ Forall (fun item => style item = options) items.
Proof.
  simpl. generalize 0%nat.
  induction fs as [|f fs IH]; intros index Hall; simpl.
  - exists []. repeat split. constructor.
  - destruct (render_feature_ok options f index) as (items & -> & Hf & Hs);
      [apply Hall; left; reflexivity|].
    destruct (IH (S index)) as (more & -> & Hf' & Hs');
      [intros g Hg; apply Hall; right; exact Hg|].
    exists (items ++ more). split; [reflexivity|].
    rewrite map_app, Hf, Hf'. split; [reflexivity|].
    apply Forall_app; split; assumption.
Qed.

(** X24.  One polygon without a ring, in any feature, makes
    [renderGeoJSONPolygons] throw: nothing is rendered. *)
Theorem render_throws_on_ringless (options : RenderOptions) (fs : list (Feature P))
  (f : Feature P) :
  In f fs -> has_rings f = false ->
  render (Some {| features := Some fs |}) options = TypeError.
Proof.
  simpl. generalize 0%nat.
  induction fs as [|g fs IH]; intros index Hin Hf; [destruct Hin|]. simpl.
  destruct Hin as [->|Hin].
  - rewrite (render_feature_throws options f index Hf). reflexivity.
  - rewrite (IH (S index) Hin Hf).
    destruct (render_feature index_to_string options g index); reflexivity.
Qed.

(** X25.  A feature that is rendered at some zoom level is rendered at
    every higher one. *)
Theorem shouldRenderFeature_monotone (f : Feature P) (zoomLevel zoomLevel' : Q) :
  (zoomLevel <= zoomLevel')%Q ->
  shouldRenderFeature f zoomLevel = true ->
  shouldRenderFeature f zoomLevel' = true.
Proof.
  intros Hz. unfold shouldRenderFeature.
  destruct (geometry f) as [g|]; [|discriminate].
  destruct (num_lt zoomLevel 8) eqn:E8; destruct (num_lt zoomLevel' 8) eqn:E8';
    destruct (num_lt zoomLevel 12) eqn:E12; destruct (num_lt zoomLevel' 12) eqn:E12';
    try reflexivity; try (intros Hr; exact Hr);
    try (rewrite !Nat.ltb_lt; lia);
    exfalso;
    repeat match goal with
      | E : num_lt _ _ = true |- _ => apply num_lt_spec in E
      | E : num_lt _ _ = false |- _ =>
          apply not_true_iff_false in E; rewrite num_lt_spec in E
      end; lra.
Qed.

(** X26.  The map view draws at most [maxPolygons] ward polygons, 50 on iOS
    and 25 on Android: the first of the rendered ones, in order, that pass
    [shouldRenderFeature] at the zoom level. *)
Theorem wardPolygons_capped (os : Platform) (options : RenderOptions)
  (showWards loading : bool) (zoomLevel : Q) (g : FeatureCollection P)
  (drawn : list RenderedPolygon) :
  wardPolygons index_to_string os options showWards loading zoomLevel (Some g)
  = Ok (Some drawn) ->
  showWards = true /\ loading = false
  /\ (length drawn <= maxPolygons os <= 50)%nat
  /\ Forall (fun polygon => shouldRenderFeature (feature polygon) zoomLevel = true) drawn
  /\ exists polygons, render (Some g) options = Ok polygons /\ sublist drawn polygons.
Proof.
  unfold wardPolygons.
  destruct showWards, loading; cbn [negb orb]; try discriminate.
  destruct (renderGeoJSONPolygons index_to_string (Some g) options) as [polygons|] eqn:Hr;
    [|discriminate].
  intros [= <-]. split; [reflexivity|]. split; [reflexivity|].
  unfold slice. rewrite Nat.sub_0_r. simpl skipn. split; [|split].
  - split; [apply firstn_le_length | destruct os; simpl; lia].
  - apply Forall_take. apply List.Forall_forall. intros polygon Hin.
    apply filter_In in Hin. apply Hin.
  - exists polygons. split; [reflexivity|].
    etransitivity; [apply sublist_take | apply SpatialFilterFacts.filter_sublist].
Qed.

End RenderingFacts.
End RenderingFacts.

(** ** Rate limiting *)

Module RateLimitFacts.
Import RateLimit.
Section RateLimitFacts.
Context {A : Type}.

Lemma debounce_calls (st : option A) (burst : list A) (args : A)
  (rest : list (Event A)) :
  run debounce_step st (map Call burst ++ Call args :: Fire :: rest)
  = args :: run debounce_step None rest.
Proof.
  revert st. induction burst as [|b burst IH]; intros st; simpl; [reflexivity|].
  apply IH.
Qed.

Lemma debounce_run_sublist (st : option A) (events : list (Event A)) :
  sublist (run debounce_step st events)
    (match st with Some args => [args] | None => [] end ++ call_args events)
  /\ (length (run debounce_step st events) <= fires events)%nat.
Proof.
  revert st. induction events as [|[args|] events IH]; intros st.
  - simpl. split; [apply sublist_nil_l | lia].
  - destruct (IH (Some args)) as [Hs Hl]. simpl in *. split; [|exact Hl].
    destruct st; [apply sublist_cons|]; exact Hs.
  - destruct (IH None) as [Hs Hl]. unfold fires in *. simpl in *.
    destruct st as [args|]; simpl; split; try lia; try exact Hs.
    apply sublist_skip. exact Hs.
Qed.

(** X27.  Of a burst of calls followed by the timer firing, [debounce]
    passes on the last call only, with its own arguments, and is then as
    new.  On any events it calls the function with arguments it was called
    with, in their order, and at most once for each timer that fires. *)
Theorem debounce_delivers_last_call (burst : list A) (args : A)
  (rest events : list (Event A)) :
  debounce (map Call burst ++ Call args :: Fire :: rest) = args :: debounce rest
  /\ sublist (debounce events) (call_args events)
  /\ (length (debounce events) <= fires events)%nat.
Proof.
  split; [apply debounce_calls | exact (debounce_run_sublist None events)].
Qed.

Lemma throttle_calls (burst : list A) (rest : list (Event A)) :
  run throttle_step true (map Call burst ++ Fire :: rest) = run throttle_step false rest.
Proof.
  induction burst as [|b burst IH]; simpl; [reflexivity | exact IH].
Qed.

Lemma throttle_run_sublist (st : bool) (events : list (Event A)) :
  sublist (run throttle_step st events) (call_args events)
  /\ (length (run throttle_step st events) + (if st then 1 else 0)
      <= 1 + fires events)%nat.
Proof.
  revert st. induction events as [|[args|] events IH]; intros st.
  - simpl. split; [constructor | destruct st; lia].
  - destruct (IH true) as [Hs Hl]. unfold fires in *. simpl in *.
    destruct st; simpl; split; try lia.
    + apply sublist_cons. exact Hs.
    + apply sublist_skip. exact Hs.
  - destruct (IH false) as [Hs Hl]. unfold fires in *. simpl in *.
    split; [exact Hs | destruct st; lia].
Qed.

(** X28.  Of a burst of calls followed by the timer firing, [throttle]
    passes on the first call only; the other calls of the burst are
    dropped, not deferred.  On any events it calls the function with
    arguments it was called with, in their order, and at most once more
    than timers fire. *)
Theorem throttle_delivers_first_call (args : A) (burst : list A)
  (rest events : list (Event A)) :
  throttle (Call args :: map Call burst ++ Fire :: rest) = args :: throttle rest
  /\ sublist (throttle events) (call_args events)
  /\ (length (throttle events) <= 1 + fires events)%nat.
Proof.
  split.
  - unfold throttle. simpl. f_equal. apply throttle_calls.
  - destruct (throttle_run_sublist false events) as [Hs Hl].
    split; [exact Hs | unfold throttle; lia].
Qed.

End RateLimitFacts.
End RateLimitFacts.

(** ** Boundaries served by the route, read by the hooks *)

Module ServedBoundariesFacts.
Import Geo BoundaryStore WardLookup.
Section ServedBoundariesFacts.
Context {P : Type} `{Position P}.
Variable js_to_string : JSValue -> string.

Lemma find_loop_member (pt : LatLng) (fs : list (Feature P)) (f : Feature P) :
  find_loop pt fs = Ok (Some f) -> In f fs.
Proof.
  induction fs as [|x fs IH]; simpl; [discriminate|].
  destruct (feature_test pt x) as [[|]|]; try discriminate.
  - intros [= <-]. left. reflexivity.
  - intros Hf. right. exact (IH Hf).
Qed.

Lemma boundary_feature_keys (ward : @WardRow P) :
  get_prop_opt (properties (boundary_feature ward)) "id" = JUndefined
  /\ get_prop_opt (properties (boundary_feature ward)) "WARD_ID" = JUndefined
  /\ get_prop_opt (properties (boundary_feature ward)) "municipality" = JUndefined
  /\ get_prop_opt (properties (boundary_feature ward)) "MUNICIPALITY" = JUndefined
  /\ get_prop_opt (properties (boundary_feature ward)) "WARD_NAME" = JUndefined
  /\ get_prop_opt (properties (boundary_feature ward)) "name" = row_name ward.
Proof.
  unfold boundary_feature, get_prop_opt, get_prop. simpl.
  repeat split;
    repeat (rewrite lookup_insert_ne by discriminate);
    first [rewrite lookup_empty; reflexivity | rewrite lookup_insert_eq; reflexivity].
Qed.

(** X29.  A ward that [findWardByLocation] finds among the boundaries the
    route [/boundaries/simplified] serves has no identifier and no
    municipality: the route writes the key [ward_id], the hook reads [id]
    and [WARD_ID].  Its name is the name of the row, or the text made from
    the missing [WARD_ID]. *)
Theorem served_ward_has_no_id (wards : list (@WardRow P)) (lat lng : Q)
  (summary : @WardSummary P) :
  findWardByLocation js_to_string (simplified_boundaries (Some wards)) false lat lng
  = Ok (Some summary) ->
  summary_id summary = JUndefined
  /\ summary_municipality summary = JUndefined
  /\ exists ward,
       In ward wards
       /\ summary_name summary
          = js_or (row_name ward) (JStr ("Ward " ++ js_to_string JUndefined)).
Proof.
  unfold findWardByLocation, simplified_boundaries, findWardForPoint. simpl.
  destruct (find_loop _ (map boundary_feature wards)) as [[found|]|] eqn:Hfind;
    try discriminate.
  intros [= <-].
  apply find_loop_member, in_map_iff in Hfind as (ward & <- & Hin).
  destruct (boundary_feature_keys ward) as (Hid & HID & Hm & HM & HN & Hn).
  unfold summary_of. cbn [summary_id summary_municipality summary_name].
  rewrite Hid, HID, Hm, HM, HN, Hn.
  split; [reflexivity|]. split; [reflexivity|].
  exists ward. split; [exact Hin|].
  unfold js_or at 1 2. simpl. destruct (truthy (row_name ward)) eqn:Ht.
  - unfold js_or. rewrite Ht. reflexivity.
  - unfold js_or. rewrite Ht. reflexivity.
Qed.

(** X30.  What [useGeoJSON] keeps of a feature the route serves, after the
    hard cap and the pruning, has the properties [id] and [municipality]
    undefined and the name of the row when it is truthy: the identifier
    the route wrote under [ward_id] is dropped. *)
Theorem served_feature_pruned (ward : @WardRow P) :
  properties (prune_feature (Simplifier.cap_feature (boundary_feature ward)))
  = Some (<["id" := JUndefined]>
          (<["name" := js_or (row_name ward) JUndefined]>
           (<["municipality" := JUndefined]> ∅))).
Proof.
  assert (Hprops : properties (Simplifier.cap_feature (boundary_feature ward))
                   = properties (boundary_feature ward)).
  { unfold Simplifier.cap_feature.
    destruct (geometry (boundary_feature ward)) as [[[|coords others]|polygons]|];
      try reflexivity.
    destruct (100 <? length coords)%nat; reflexivity. }
  unfold prune_feature. cbn [properties]. rewrite Hprops.
  destruct (boundary_feature_keys ward) as (Hid & HID & Hm & HM & HN & Hn).
  rewrite Hid, HID, Hm, HM, HN, Hn. reflexivity.
Qed.

End ServedBoundariesFacts.
End ServedBoundariesFacts.

(** ** Examples for the further properties *)

Module FurtherExamples.
Import Geo Simplifier SpatialFilter BoundaryStore Ingestion Rendering WardLookup.
Import SimplifierExamples PointInPolygonExamples LookupExamples FilterExamples.
Import StoreExamples IngestionExamples.

Lemma reduce_ring_keeps_a_third_witness : (34 <= length (reduce_ring ring102))%nat.
Proof.
  apply (StrideFacts.reduce_ring_keeps_a_third ring102). vm_compute. lia.
Defined.

Lemma simplify_ring_subsequence_closed_witness :
  ring_closed (simplify_ring 0.5 triangle).
Proof.
  apply (StrideFacts.simplify_ring_subsequence_closed 0.5 triangle).
  split; reflexivity.
Defined.





Lemma findWardForPoint_sound_witness :
  exists pt g fs before after,
    Some inner = Some pt
    /\ Some {| features := Some [ward_a; ward_b] |} = Some g
    /\ features g = Some fs
    /\ fs = before ++ ward_a :: after
    /\ feature_contains pt ward_a = true
    /\ forall earlier, In earlier before -> feature_contains pt earlier = false.
Proof.
  apply (LookupSoundness.findWardForPoint_sound (Some inner)
           (Some {| features := Some [ward_a; ward_b] |}) ward_a).
  vm_compute. reflexivity.
Defined.

(** A Polygon whose [coordinates] is the empty array. *)
Definition ringless : Feature (Q * Q) :=
  {| properties := Some (<["id" := JStr "9"]> ∅); geometry := Some (Polygon []) |}.

Lemma findWardForPoint_throws_witness :
  findWardForPoint (Some outer)
    (Some {| features := Some ([ward_a] ++ ringless :: [ward_b]) |})
  = TypeError.
Proof.
  apply (LookupSoundness.findWardForPoint_throws outer [ward_a] [ward_b]
           (Some (<["id" := JStr "9"]> ∅))).
  intros earlier [<-|[]]. split; vm_compute; reflexivity.
Defined.

Lemma filter_small_collection_witness :
  features (filterGeoJSONByBounds {| features := Some [at_origin] |} (Some viewport))
  = Some (List.filter (vertex_in_bounds viewport) [at_origin]).
Proof.
  apply (ViewportFacts.filter_small_collection [at_origin] viewport). simpl. lia.
Defined.

(** A viewport around [viewport]. *)
Definition wide_viewport : Bounds :=
  {| northEast := {| latitude := 3; longitude := 3 |};
     southWest := {| latitude := -3; longitude := -3 |} |}.

Lemma filter_monotone_in_bounds_witness :
  exists kept kept',
    features (filterGeoJSONByBounds {| features := Some sixty |} (Some viewport)) = Some kept
    /\ features (filterGeoJSONByBounds {| features := Some sixty |} (Some wide_viewport))
       = Some kept'
    /\ sublist kept kept'.
Proof.
  apply (ViewportFacts.filter_monotone_in_bounds sixty viewport wide_viewport).
  repeat split; vm_compute; discriminate.
Defined.

(** The entry a load of [fetched] at time 1001 writes, and a reader that
    gives it back. *)
Definition written : @CacheData (Q * Q) :=
  {| data := LoadCycleFacts.optimized (map cap_feature [polygon101]); timestamp := 1001 |}.

Definition parse_written (blob : string) : option (@CacheData (Q * Q)) :=
  if String.eqb blob "entry" then Some written else None.

Lemma cache_round_trip_witness :
  dataSource
    (snd (loadGeoJSON keep_all parse_written stringify 0.005 2000 2001
            (FetchRejected "offline") (FetchRejected "offline")
            (fst (loadGeoJSON keep_all parse_written stringify 0.005 1000 1001
                    (Response true 200 (Some fetched)) (FetchRejected "offline")
                    empty initial_state))
            initial_state))
  = cache.
Proof.
  destruct (LoadCycleFacts.cache_round_trip keep_all parse_written stringify
              0.005 0.005 1000 1001 2000 2001
              (Response true 200 (Some fetched)) (FetchRejected "offline")
              (FetchRejected "offline") (FetchRejected "offline")
              empty empty initial_state initial_state
              fetched api (map cap_feature [polygon101])) as [_ Hnext].
  - reflexivity.
  - reflexivity.
  - reflexivity.
  - discriminate.
  - reflexivity.
  - lia.
  - rewrite Hnext. reflexivity.
Defined.

Lemma failed_load_keeps_data_witness :
  loadGeoJSON keep_all parse stringify 0.005 1000 1001
    (Response false 503 None) (FetchRejected "offline") empty initial_state
  = (empty, {| geoJsonData := None; loading := false;
               error := Some (Rejected "offline"); dataSource := cache |}).
Proof.
  apply (LoadCycleFacts.failed_load_keeps_data keep_all parse stringify 0.005 1000 1001
           (Response false 503 None) (FetchRejected "offline") empty empty initial_state
           (Rejected "offline")); [reflexivity | exact I | reflexivity].
Defined.

Lemma data_source_is_truthful_witness :
  exists entry,
    LoadCycleFacts.served parse 1000 with_entry entry
    /\ geoJsonData
         (snd (loadGeoJSON keep_all parse stringify 0.005 1000 1001
                 (Response true 200 (Some fetched)) (FetchRejected "offline")
                 with_entry initial_state))
       = Some (data entry).
Proof.
  exact (LoadCycleFacts.data_source_is_truthful keep_all parse stringify 0.005 1000 1001
           (Response true 200 (Some fetched)) (FetchRejected "offline")
           with_entry initial_state eq_refl).
Defined.

Lemma import_success_counts_witness :
  truthy (JStr "https://example.org/wards.geojson") = true
  /\ exists status fs,
       Response true 200 (Some {| features := Some three_features |})
       = Response true status (Some {| features := Some fs |})
       /\ 3%nat = length fs
       /\ 2%nat = length (List.filter has_ward_id fs)
       /\ (1 <= 2 <= 3)%nat.
Proof.
  apply (ImportFacts.import_success_counts to_string accept_all
           (JStr "https://example.org/wards.geojson") JNull None
           (Response true 200 (Some {| features := Some three_features |})) 2 3).
  vm_compute. reflexivity.
Defined.

Lemma collect_wards_in_order_witness :
  exists wards,
    collect_wards to_string JNull 0.001 three_features = Ok wards
    /\ map ward_id wards = ["1"; "3"]%string.
Proof.
  destruct (collect_wards to_string JNull 0.001 three_features) as [wards|] eqn:E;
    [|vm_compute in E; discriminate].
  exists wards. split; [reflexivity|].
  destruct (ImportFacts.collect_wards_in_order to_string JNull 0.001 three_features wards E)
    as (Hid & _).
  rewrite Hid. vm_compute. reflexivity.
Defined.

(** A store that refuses every batch. *)
Definition reject_all (batch : list (@WardRecord (Q * Q))) : option string :=
  Some "conflict"%string.

Lemma import_stops_at_refused_batch_witness :
  import_wards to_string reject_all (JStr "https://example.org/wards.geojson") JNull None
    (Response true 200 (Some {| features := Some three_features |}))
  = Some (Status400 "Failed to insert ward batch: conflict").
Proof.
  destruct (collect_wards to_string JNull 0.001 three_features) as [wards|] eqn:E;
    [|vm_compute in E; discriminate].
  apply (ImportFacts.import_stops_at_refused_batch to_string reject_all
           (JStr "https://example.org/wards.geojson") JNull None 200 three_features
           wards 0 "conflict").
  - reflexivity.
  - exact E.
  - vm_compute in E. injection E as <-. vm_compute. lia.
  - intros j Hj. lia.
  - reflexivity.
Defined.

Lemma import_fails_on_ringless_polygon_witness :
  import_wards to_string accept_all (JStr "https://example.org/wards.geojson") JNull
    (Some 0.001%Q)
    (Response true 200 (Some {| features := Some [ward "id" "1"; ringless] |}))
  = Some Status500.
Proof.
  apply (ImportFacts.import_fails_on_ringless_polygon to_string accept_all
           (JStr "https://example.org/wards.geojson") JNull 0.001 200
           [ward "id" "1"; ringless] ringless).
  - reflexivity.
  - reflexivity.
  - right. left. reflexivity.
  - reflexivity.
  - reflexivity.
Defined.

(** The index in unary. *)
Fixpoint strokes (index : nat) : string :=
  match index with
  | O => EmptyString
  | S index' => ("|" ++ strokes index')%string
  end.

Lemma render_one_item_per_polygon_witness :
  exists items,
    renderGeoJSONPolygons strokes (Some {| features := Some [ward_a; ward_b] |})
      default_options
    = Ok items
    /\ map feature items
       = flat_map (fun f => repeat f (polygon_count f)) [ward_a; ward_b]
    /\ Forall (fun item => style item = default_options) items.
Proof.
  apply (RenderingFacts.render_one_item_per_polygon strokes default_options
           [ward_a; ward_b]).
  intros f [<-|[<-|[]]]; reflexivity.
Defined.

Lemma render_throws_on_ringless_witness :
  renderGeoJSONPolygons strokes (Some {| features := Some [ward_a; ringless] |})
    default_options
  = TypeError.
Proof.
  apply (RenderingFacts.render_throws_on_ringless strokes default_options
           [ward_a; ringless] ringless).
  - right. left. reflexivity.
  - reflexivity.
Defined.

Lemma shouldRenderFeature_monotone_witness : shouldRenderFeature at_origin 13 = true.
Proof.
  apply (RenderingFacts.shouldRenderFeature_monotone at_origin 5 13).
  - vm_compute. discriminate.
  - reflexivity.
Defined.

Lemma wardPolygons_capped_witness :
  exists drawn,
    wardPolygons strokes android default_options true false 10
      (Some {| features := Some sixty |})
    = Ok (Some drawn)
    /\ (length drawn <= 25)%nat.
Proof.
  destruct (wardPolygons strokes android default_options true false 10
              (Some {| features := Some sixty |})) as [[drawn|]|] eqn:E;
    [|vm_compute in E; discriminate..].
  exists drawn. split; [reflexivity|].
  destruct (RenderingFacts.wardPolygons_capped strokes android default_options
              true false 10 {| features := Some sixty |} drawn E)
    as (_ & _ & [Hlen _] & _).
  exact Hlen.
Defined.

(** One row of the table, with the triangle as boundary. *)
Definition row7 : @WardRow (Q * Q) :=
  {| row_ward_id := JStr "7"; row_name := JStr "Seven";
     row_geojson := Some (Polygon [triangle]) |}.

Lemma served_ward_has_no_id_witness :
  exists summary,
    findWardByLocation to_string (simplified_boundaries (Some [row7])) false
      (latitude inner) (longitude inner)
    = Ok (Some summary)
    /\ summary_id summary = JUndefined.
Proof.
  destruct (findWardByLocation to_string (simplified_boundaries (Some [row7])) false
              (latitude inner) (longitude inner)) as [[summary|]|] eqn:E;
    [|vm_compute in E; discriminate..].
  exists summary. split; [reflexivity|].
  destruct (ServedBoundariesFacts.served_ward_has_no_id to_string [row7]
              (latitude inner) (longitude inner) summary E) as (Hid & _).
  exact Hid.
Defined.

End FurtherExamples.
